(** * pyGuard: dependency resolution and rule dispatch

    A shallow embedding of the resolver
    ([pysecurity/scanners/project_scanner.py],
    [guarddog/scanners/pypi_project_scanner.py]), of the rule dispatch
    ([pysecurity/analyzer/analyzer.py]), of the empty-description detector
    ([guarddog/analyzer/metadata/empty_information.py]) and of the rule
    selection of the command line ([guarddog/cli.py]).

    Python values are modelled as follows.
    - [str] is [string]; comparison of two [str] is the lexicographic
      comparison of their code points ([String.compare]).  The description
      read by the detector is a list of code points, so that every Unicode
      white space is covered.
    - [set] is [gset], [dict] is [gmap]; a variable that may hold [None] is
      an [option].
    - An exception is carried in a sum: [inl e] is "raised [e]", where [e] is
      the text [str(e)] that the handlers print.
    - Text written to [sys.stderr] or printed is collected in a list, oldest
      first.
    - The registry, the regular expression engine, the version specifiers of
      [packaging], the pattern-matching engine and the detectors are
      parameters of the sections that use them. *)

From Stdlib Require Import ZArith NArith Ascii String List Bool Lia.
From Stdlib Require Import Sorted OrderedTypeEx.
From stdpp Require Import base option list gmap sets strings pretty.

Local Open Scope string_scope.

(** ** Python strings *)

Module PyStr.

(** [a < b], [a <= b], [a > b], [a >= b] on [str]. *)
Definition str_lt (a b : string) : bool :=
  match String.compare a b with Lt => true | _ => false end.
Definition str_le (a b : string) : bool :=
  match String.compare a b with Gt => false | _ => true end.
Definition str_gt (a b : string) : bool := str_lt b a.
Definition str_ge (a b : string) : bool := str_le b a.

(** [s.split(sep)] for a separator of one character: never empty. *)
Fixpoint split_on (sep : ascii) (s : string) : list string :=
  match s with
  | EmptyString => [""]
  | String c s' =>
      if Ascii.eqb c sep then "" :: split_on sep s'
      else match split_on sep s' with
           | [] => [String c ""]
           | p :: ps => String c p :: ps
           end
  end.

(** [l[:-1]] *)
Definition drop_last {A} (l : list A) : list A := removelast l.

(** [l[-1]]; [None] is [IndexError]. *)
Definition last_item {A} (l : list A) : option A := last l.

(** [sep.join(l)] *)
Definition join (sep : string) (l : list string) : string :=
  String.concat sep l.

(** [s.startswith(p)] *)
Definition startswith (s p : string) : bool := String.prefix p s.

(** The elements of [set(s)]: the characters of [s], each a [str]. *)
Fixpoint chars (s : string) : list string :=
  match s with
  | EmptyString => []
  | String c s' => String c "" :: chars s'
  end.

(** [sorted(l)]: stable, ascending. *)
Fixpoint insert_asc (x : string) (l : list string) : list string :=
  match l with
  | [] => [x]
  | y :: l' => if str_le x y then x :: l else y :: insert_asc x l'
  end.
Definition sorted (l : list string) : list string :=
  foldr insert_asc [] l.

(** [sorted(l, reverse=True)]: stable, descending. *)
Fixpoint insert_desc (x : string) (l : list string) : list string :=
  match l with
  | [] => [x]
  | y :: l' => if str_le y x then x :: l else y :: insert_desc x l'
  end.
Definition sorted_reverse (l : list string) : list string :=
  foldr insert_desc [] l.

(** The order of the list [sorted] returns. *)
Definition ascending : list string → Prop :=
  StronglySorted (fun a b => str_le a b = true).

End PyStr.

(** ** Version ordering

    The order the specification means by "version-ordering semantics":
    the release segments of a version are numbers, compared from the left,
    a missing segment counting as zero, so that 1.10 is above 1.9. *)

Module VersionOrder.

Definition digit (c : ascii) : option N :=
  let n := N_of_ascii c in
  if ((48 <=? n) && (n <=? 57))%N then Some (n - 48)%N else None.

Fixpoint number_from (acc : N) (s : string) : option N :=
  match s with
  | EmptyString => Some acc
  | String c s' =>
      match digit c with
      | Some d => number_from (10 * acc + d)%N s'
      | None => None
      end
  end.

Definition segment (s : string) : option N :=
  match s with
  | EmptyString => None
  | _ => number_from 0%N s
  end.

Fixpoint segments (l : list string) : option (list N) :=
  match l with
  | [] => Some []
  | s :: l' =>
      match segment s, segments l' with
      | Some n, Some ns => Some (n :: ns)
      | _, _ => None
      end
  end.

Definition release (v : string) : option (list N) :=
  segments (PyStr.split_on "." v).

Fixpoint release_compare (a b : list N) : comparison :=
  match a, b with
  | [], _ => if forallb (N.eqb 0) b then Eq else Lt
  | _, [] => if forallb (N.eqb 0) a then Eq else Gt
  | x :: a', y :: b' =>
      match N.compare x y with Eq => release_compare a' b' | c => c end
  end.

(** [version_lt a b]: both are release versions and [a] is below [b]. *)
Definition version_lt (a b : string) : bool :=
  match release a, release b with
  | Some ra, Some rb =>
      match release_compare ra rb with Lt => true | _ => false end
  | _, _ => false
  end.

Definition version_le (a b : string) : bool :=
  match release a, release b with
  | Some ra, Some rb =>
      match release_compare ra rb with Gt => false | _ => true end
  | _, _ => false
  end.

End VersionOrder.

(** ** Exceptions and diagnostics *)

(** [str(e)] of a raised exception. *)
Definition Exn : Type := string.

(** [sys.stderr.write(s)] and [print(s)]: the text is appended to what was
    written before. *)
Definition emit (out : list string) (s : string) : list string :=
  (out ++ [s])%list.

(** ** [pysecurity/scanners/project_scanner.py] *)

Module ProjectScanner.
Import PyStr.

(** A requirement as [pkg_resources] parses it: [project_name] and
    [specs], the list of (qualifier, version) pairs. *)
Record Requirement : Type := mkRequirement {
  project_name : string;
  specs : list (string * string)
}.

(** What one turn of the [match qualifier] statement does. *)
Inductive Branch : Type :=
| Used (used_versions : option (gset string))
| UnknownQualifier.

Section Resolver.

(** [requests.get(url).json()["releases"].keys()] for a package, or the
    exception raised on the way. *)
Variable releases : string -> Exn + list string.

(** [re.search(pattern, candidate) is not None], or [re.error]. *)
Variable re_search : string -> string -> Exn + bool.

(** The local function [versions]. *)
Definition versions (package_name : string) : Exn + list string :=
  match releases package_name with
  | inl e => inl e
  | inr keys => inr (sorted_reverse keys)
  end.

(** Line 83: the bound's segments but the last, joined by nothing. *)
Definition compatible_prefix (version : string) : string :=
  join "" (drop_last (split_on "." version)).

(** Lines 84-87: the walk down the list stops at the first candidate
    that passes both tests. *)
Definition compatible_pick (version : string)
    (available_versions : list string) : option string :=
  List.find
    (fun available_version =>
       str_ge available_version version
       && startswith available_version (compatible_prefix version))
    available_versions.

(** Lines 79-80: the candidates the pattern is found in. *)
Fixpoint matching_versions (version : string)
    (available_versions : list string) : Exn + list string :=
  match available_versions with
  | [] => inr []
  | candidate :: rest =>
      match re_search version candidate with
      | inl e => inl e
      | inr found =>
          match matching_versions version rest with
          | inl e => inl e
          | inr ms => inr (if found then candidate :: ms else ms)
          end
      end
  end.

(** Lines 67-90. *)
Definition used_versions_of (qualifier version : string)
    (available_versions : list string) : Exn + Branch :=
  if String.eqb qualifier ">" then
    inr (Used (Some (list_to_set
      (List.filter (fun v => str_gt v version) available_versions))))
  else if String.eqb qualifier "<" then
    inr (Used (Some (list_to_set
      (List.filter (fun v => str_lt v version) available_versions))))
  else if String.eqb qualifier ">=" then
    inr (Used (Some (list_to_set
      (List.filter (fun v => str_ge v version) available_versions))))
  else if String.eqb qualifier "<=" then
    inr (Used (Some (list_to_set
      (List.filter (fun v => str_le v version) available_versions))))
  else if String.eqb qualifier "==" then
    match matching_versions version available_versions with
    | inl e => inl e
    | inr ms => inr (Used (Some (list_to_set ms)))
    end
  else if String.eqb qualifier "~=" then
    inr (Used (option_map (fun v => list_to_set (chars v))
                 (compatible_pick version available_versions)))
  else inr UnknownQualifier.

(** Lines 92-95; [set & None] is a [TypeError]. *)
Definition combine (valid_versions used_versions : option (gset string))
    : Exn + option (gset string) :=
  match valid_versions, used_versions with
  | None, _ => inr used_versions
  | Some valid, Some used => inr (Some (valid ∩ used))
  | Some _, None =>
      inl "unsupported operand type(s) for &: 'set' and 'NoneType'"
  end.

(** The loop over [requirement.specs], lines 58-95.  The result is the
    final [valid_versions] or the exception that leaves the loop, with
    the text written to [sys.stderr]. *)
Fixpoint resolve_specs (name : string) (l : list (string * string))
    (valid_versions : option (gset string)) (err : list string)
    : (Exn + option (gset string)) * list string :=
  match l with
  | [] => (inr valid_versions, err)
  | (qualifier, version) :: rest =>
      match versions name with
      | inl _ =>
          resolve_specs name rest valid_versions
            (emit err ("Package " +:+ name +:+ " not on PyPI"))
      | inr available_versions =>
          match used_versions_of qualifier version available_versions with
          | inl e => (inl e, err)
          | inr UnknownQualifier =>
              resolve_specs name rest valid_versions
                (emit err ("Unknown qualifier: " +:+ qualifier))
          | inr (Used used_versions) =>
              match combine valid_versions used_versions with
              | inl e => (inl e, err)
              | inr valid => resolve_specs name rest valid err
              end
          end
      end
  end.

(** The loop over the parsed requirements, lines 55-99.  [parsed] is
    what the iterator of [pkg_resources.parse_requirements] gives, item
    by item: a requirement, or the exception it raises. *)
Fixpoint resolve_all (parsed : list (Exn + Requirement))
    (dependencies : gmap string (option (gset string)))
    (err : list string)
    : gmap string (option (gset string)) * list string :=
  match parsed with
  | [] => (dependencies, err)
  | inl e :: _ => (dependencies, emit err ("Received error " +:+ e))
  | inr requirement :: rest =>
      match resolve_specs (project_name requirement)
              (specs requirement) None err with
      | (inl e, err') => (dependencies, emit err' ("Received error " +:+ e))
      | (inr valid_versions, err') =>
          resolve_all rest
            (<[project_name requirement := valid_versions]> dependencies)
            err'
      end
  end.

(** [RequirementsScanner.parse_requirements], from the parsed lines on:
    the dictionary returned and the text written to [sys.stderr]. *)
Definition parse_requirements (parsed : list (Exn + Requirement))
    : gmap string (option (gset string)) * list string :=
  resolve_all parsed ∅ [].

End Resolver.

End ProjectScanner.

(** ** [guarddog/scanners/pypi_project_scanner.py] *)

Module PypiProjectScanner.
Import PyStr.

(** A requirement as [pkg_resources] parses it: [project_name], [url]
    and [str(requirement.specifier)]. *)
Record Requirement : Type := mkRequirement {
  project_name : string;
  url : option string;
  specifier : string
}.

Section Resolver.

(** [requests.get(url).json()["releases"].keys()] for a package, or the
    exception raised on the way. *)
Variable releases : string -> Exn + list string.

(** [list(Specifier(semver_range).filter(versions))] of [packaging];
    [None] when [Specifier] raises [ValueError]. *)
Variable specifier_filter : string -> list string -> option (list string).

(** [guarddog.utils.config.VERIFY_EXHAUSTIVE_DEPENDENCIES]; [false] is
    the best-match mode. *)
Variable VERIFY_EXHAUSTIVE_DEPENDENCIES : bool.

(** Lines 88-90: [result] when it is kept, or [IndexError] from [pop]. *)
Definition best_matched (result : list string) : Exn + list string :=
  if negb VERIFY_EXHAUSTIVE_DEPENDENCIES
     && negb (Nat.eqb (length result) 0)
  then match last_item (sorted result) with
       | Some v => inr [v]
       | None => inl "pop from empty list"
       end
  else inr result.

(** The local function [find_all_versions]. *)
Definition find_all_versions (package_name semver_range : string)
    : Exn + gset string :=
  match releases package_name with
  | inl e => inl e
  | inr keys =>
      let versions := sorted_reverse keys in
      let result :=
        match specifier_filter semver_range versions with
        | Some filtered => filtered
        | None => [semver_range]
        end in
      match best_matched result with
      | inl e => inl e
      | inr result => inr (list_to_set result)
      end
  end.

(** [requirement.url if requirement.url else str(requirement.specifier)] *)
Definition semver_range_of (requirement : Requirement) : string :=
  match url requirement with
  | Some u => if String.eqb u "" then specifier requirement else u
  | None => specifier requirement
  end.

(** The loop of lines 115-138 over what [safe_parse_requirements]
    yields.  [parsed] is what [next(parsed)] gives, call by call: a
    requirement, or the exception it raises. *)
Fixpoint resolve_all (parsed : list (Exn + Requirement))
    (dependencies : gmap string (gset string)) (err : list string)
    : gmap string (gset string) * list string :=
  match parsed with
  | [] => (dependencies, err)
  | inl e :: rest =>
      resolve_all rest dependencies
        (emit err ("Error when parsing requirements, received error "
                   +:+ e +:+ ". This entry will be ignored.
"))
  | inr requirement :: rest =>
      match find_all_versions (project_name requirement)
              (semver_range_of requirement) with
      | inl _ =>
          resolve_all rest dependencies
            (emit err ("Package " +:+ project_name requirement
                       +:+ " not on PyPI
"))
      | inr versions =>
          resolve_all rest
            (<[project_name requirement := versions]> dependencies) err
      end
  end.

(** [PypiRequirementsScanner.parse_requirements], from the parsed lines
    on. *)
Definition parse_requirements (parsed : list (Exn + Requirement))
    : gmap string (gset string) * list string :=
  resolve_all parsed ∅ [].

End Resolver.

End PypiProjectScanner.

(** ** [pysecurity/analyzer/analyzer.py] *)

Module Analyzer.
Import PyStr.

(** One entry of [response["results"]]: [check_id], [path],
    [start.line] and [extra.lines]. *)
Record Finding : Type := mkFinding {
  check_id : string;
  path : string;
  start_line : Z;
  lines : string
}.

(** [self.exclude] *)
Definition exclude : list string :=
  ["helm"; ".idea"; "venv"; "test"; "tests"; ".env"; "dist"; "build";
   "semgrep"; "migrations"; ".github"; ".semgrep_logs"].

Section Metadata.

(** The registry metadata and what a detector returns. *)
Variables Info Result : Type.

(** [self.metadata_ruleset], in the order the set is walked. *)
Variable metadata_ruleset : list string.

(** [self.metadata_detectors]; a detector returns or raises. *)
Variable metadata_detectors : gmap string (Info -> Exn + Result).

(** [self.metadata_detectors[rule].detect(info)] *)
Definition run_detector (rule : string) (info : Info) : Exn + Result :=
  match metadata_detectors !! rule with
  | None => inl ("'" +:+ rule +:+ "'")
  | Some detector => detector info
  end.

(** One turn of the loop of lines 87-92. *)
Definition analyze_rule (info : Info)
    (state : gmap string Result * list string) (rule : string)
    : gmap string Result * list string :=
  let (results, err) := state in
  match run_detector rule info with
  | inr value => (<[rule := value]> results, err)
  | inl e =>
      (results,
       emit (emit err "
") ("Error while analyzing " +:+ rule +:+ ": " +:+ e))
  end.

(** [Analyzer.analyze_metadata]: the dictionary returned and the text
    written to [sys.stderr]. *)
Definition analyze_metadata (info : Info) (rules : option (list string))
    : gmap string Result * list string :=
  let all_rules :=
    match rules with Some rules => rules | None => metadata_ruleset end in
  foldl (analyze_rule info) (∅, []) all_rules.

End Metadata.

(** The value of a [targetpath] that is not [None]: the [Path] made of a
    string, which is always true, or a [str], which is true when it is
    not empty. *)
Inductive Target : Type :=
| PathOf (p : string)
| StrOf (s : string).

Definition target_text (t : Target) : string :=
  match t with
  | PathOf p => p
  | StrOf s => s
  end.

(** [bool(t)]: a [Path] defines neither [__bool__] nor [__len__]. *)
Definition truthy (t : Target) : bool :=
  match t with
  | PathOf _ => true
  | StrOf s => negb (String.eqb s "")
  end.

Section Sourcecode.

(** [self.sourcecode_path] and [self.sourcecode_ruleset], the latter in
    the order the set is walked. *)
Variable sourcecode_path : string.
Variable sourcecode_ruleset : list string.

(** [os.path.join], [os.path.abspath] and [os.path.relpath]; the second
    argument of [relpath] is the text a true [targetpath] is given by. *)
Variable path_join : string -> string -> string.
Variable abspath : string -> string.
Variable relpath : string -> string -> string.

(** [invoke_semgrep(config, [target], exclude=..., no_git_ignore=True)]:
    the list [response["results"]], or the exception raised. *)
Variable invoke_semgrep :
  string -> list string -> list string -> Exn + list Finding.

(** [result["check_id"].split(".")[-1]] *)
Definition check_label (result : Finding) : string :=
  match last_item (split_on "." (check_id result)) with
  | Some l => l
  | None => ""
  end.

(** [rule or result["check_id"].split(".")[-1]] *)
Definition label_of (rule : option string) (result : Finding) : string :=
  match rule with
  | Some r => if String.eqb r "" then check_label result else r
  | None => check_label result
  end.

(** Lines 125-131; [if targetpath:] holds for a target that is true. *)
Definition location_of (targetpath : option Target) (result : Finding)
    : string :=
  let file := abspath (path result) in
  let file :=
    match targetpath with
    | Some t => if truthy t then relpath file (target_text t) else file
    | None => file
    end in
  file +:+ ":" +:+ pretty (start_line result).

(** One turn of the loop of lines 120-136. *)
Definition record_finding (rule : option string)
    (targetpath : option Target)
    (results : gmap string (gmap string string)) (result : Finding)
    : gmap string (gmap string string) :=
  let label := label_of rule result in
  let message := lines result in
  let location := location_of targetpath result in
  match results !! label with
  | None => <[label := {[location := message]}]> results
  | Some locations =>
      <[label := <[location := message]> locations]> results
  end.

(** [Analyzer._format_semgrep_response] *)
Definition _format_semgrep_response (response : list Finding)
    (rule : option string) (targetpath : option Target)
    : gmap string (gmap string string) :=
  foldl (record_finding rule targetpath) ∅ response.

(** [{rule: {} for rule in all_rules}] *)
Definition empty_results (all_rules : list string)
    : gmap string (gmap string string) :=
  foldl (fun results rule => <[rule := ∅]> results) ∅ all_rules.

(** [a | b] on dictionaries: the right operand wins. *)
Definition dict_or {V} (a b : gmap string V) : gmap string V := b ∪ a.

(** The loop of lines 107-112. *)
Fixpoint analyze_each (targetpath : string) (rules : list string)
    (results : gmap string (gmap string string))
    : Exn + gmap string (gmap string string) :=
  match rules with
  | [] => inr results
  | rule :: rest =>
      match invoke_semgrep (path_join sourcecode_path (rule +:+ ".yml"))
              [targetpath] exclude with
      | inl _ => inl (rule +:+ " is not an existing rule.")
      | inr response =>
          analyze_each targetpath rest
            (dict_or results
               (_format_semgrep_response response (Some rule)
                  (Some (PathOf targetpath))))
      end
  end.

(** [Analyzer.analyze_sourcecode] *)
Definition analyze_sourcecode (path : string)
    (rules : option (list string))
    : Exn + gmap string (gmap string string) :=
  let targetpath := path in
  let all_rules :=
    match rules with Some rules => rules | None => sourcecode_ruleset end in
  let results := empty_results all_rules in
  match rules with
  | None =>
      match invoke_semgrep sourcecode_path [targetpath] exclude with
      | inl e => inl e
      | inr response =>
          inr (dict_or results
                 (_format_semgrep_response response None
                    (Some (PathOf targetpath))))
      end
  | Some rules => analyze_each targetpath rules results
  end.

(** *** Notions the properties are stated with *)

(** The file of a rule. *)
Definition rule_file (rule : string) : string :=
  path_join sourcecode_path (rule +:+ ".yml").

(** The locations of a list of findings, written in order into
    [locations]: the last finding of a location wins. *)
Definition located (targetpath : option Target)
    (locations : gmap string string) (response : list Finding)
    : gmap string string :=
  foldl (fun locations result =>
           <[location_of targetpath result := lines result]> locations)
    locations response.

(** What a rule gets for its findings: nothing when there is none. *)
Definition found (targetpath : option Target) (response : list Finding)
    : option (gmap string string) :=
  match response with
  | [] => None
  | _ => Some (located targetpath ∅ response)
  end.

(** Two findings at the same place with the same text. *)
Definition same_match (a b : Finding) : Prop :=
  path a = path b ∧ start_line a = start_line b ∧ lines a = lines b.

(** The runs of the engine [analyze_sourcecode] makes for a selection:
    the [rule] argument handed to the formatter and the configuration
    handed to the engine. *)
Definition invocations (rules : option (list string))
    : list (option string * string) :=
  match rules with
  | None => [(None, sourcecode_path)]
  | Some rules => (fun r => (Some r, rule_file r)) <$> rules
  end.

End Sourcecode.

(** The loop [results = results | g(rule)] over a list of rules. *)
Definition merged {V} (g : string -> gmap string V)
    (results : gmap string V) (rules : list string)
    : gmap string V :=
  foldl (fun results rule => dict_or results (g rule)) results rules.

End Analyzer.

(** ** [guarddog/analyzer/metadata/empty_information.py] *)

Module EmptyInformation.

#[local] Unset Elimination Schemes.

(** The values of the registry's JSON document.  A [str] is the list of
    its code points; a [dict] keeps its items in order, keys distinct. *)
Inductive pyval : Type :=
| PyNone
| PyBool (b : bool)
| PyInt (z : Z)
| PyStr (s : list N)
| PyList (l : list pyval)
| PyDict (items : list (string * pyval)).
#[local] Set Elimination Schemes.

Inductive pyexn : Type := KeyError | TypeError | AttributeError.

(** [d[key]] for a [str] key: only a [dict] can answer. *)
Fixpoint dict_get (items : list (string * pyval)) (key : string)
    : pyexn + pyval :=
  match items with
  | [] => inl KeyError
  | (k, v) :: rest => if String.eqb k key then inr v else dict_get rest key
  end.

Definition subscript (v : pyval) (key : string) : pyexn + pyval :=
  match v with
  | PyDict items => dict_get items key
  | _ => inl TypeError
  end.

(** The white space of [str.split()] and [str.isspace()]. *)
Definition isspace (c : N) : bool :=
  ((9 <=? c) && (c <=? 13) || (28 <=? c) && (c <=? 32)
   || (c =? 133) || (c =? 160) || (c =? 5760)
   || (8192 <=? c) && (c <=? 8202)
   || (c =? 8232) || (c =? 8233) || (c =? 8239) || (c =? 8287)
   || (c =? 12288))%N.

(** [s.split()]: the maximal runs of characters that are not white
    space; [word] is the run being read, last character first. *)
Fixpoint split_from (word : list N) (s : list N) : list (list N) :=
  match s with
  | [] => match word with [] => [] | _ => [rev word] end
  | c :: s' =>
      if isspace c
      then match word with
           | [] => split_from [] s'
           | _ => rev word :: split_from [] s'
           end
      else split_from (c :: word) s'
  end.

Definition split (s : list N) : list (list N) := split_from [] s.

(** [v.split()]: only a [str] has the method. *)
Definition call_split (v : pyval) : pyexn + list (list N) :=
  match v with
  | PyStr s => inr (split s)
  | _ => inl AttributeError
  end.

(** [EmptyInfoDetector.detect] *)
Definition detect (package_info : pyval) : pyexn + bool :=
  match subscript package_info "info" with
  | inl e => inl e
  | inr info =>
      match subscript info "description" with
      | inl e => inl e
      | inr description =>
          match call_split description with
          | inl e => inl e
          | inr sanitized_description =>
              inr (Nat.eqb (length sanitized_description) 0)
          end
      end
  end.

End EmptyInformation.

(** ** [guarddog/cli.py] *)

Module Cli.

(** How a call ends: it returns, the process exits with a status, or an
    exception leaves it. *)
Inductive Outcome (A : Type) : Type :=
| Returned (a : A)
| Exited (code : Z)
| Raised (e : Exn).
Arguments Returned {A} a.
Arguments Exited {A} code.
Arguments Raised {A} e.

(** The value of [rule_param]: the tuple given with [--rules], or the
    set computed from [--exclude-rules]. *)
Inductive RuleParam : Type :=
| Requested (rules : list string)
| Remaining (rules : gset string).

Inductive Ecosystem : Type := PYPI | NPM.

(** What the command does to the outside, in order. *)
Inductive Event : Type :=
| Printed (s : string)
| ErrWritten (s : string)
| GotScanner (ecosystem : Ecosystem) (project : bool)
| ScannedLocal (path : string) (rule_param : option RuleParam)
| ScannedRemote (identifier : string) (version : option string)
    (rule_param : option RuleParam).

(** An event of the scanners: a scanner is looked up or run. *)
Definition is_scan_event (e : Event) : bool :=
  match e with
  | GotScanner _ _ | ScannedLocal _ _ | ScannedRemote _ _ _ => true
  | Printed _ | ErrWritten _ => false
  end.

(** The one line printed when the two options are given together. *)
Definition conflict : Event :=
  Printed "--rules and --exclude-rules cannot be used together".

Definition IssuesFound : Z := 1.

Section Commands.

Variable ALL_RULES : gset string.

(** The report of one package, its ['issues'] entry ([None] when the
    key is missing) and the lines [print_scan_results] and [json.dumps]
    make of it. *)
Variable Results : Type.
Variable issues : Results -> option Z.
Variable print_scan_results : Results -> string -> list string.
Variable dumps : Results -> string.

(** One entry of a project scan. *)
Record Verified : Type := mkVerified {
  dependency : string;
  version : option string;
  result : Results
}.
Variable dumps_verified : list Verified -> string.
Variable report_verify_sarif :
  string -> gset string -> list Verified -> Ecosystem -> string.

(** A scanner of packages and a scanner of projects. *)
Record PackageScanner : Type := mkPackageScanner {
  scan_local : string -> option RuleParam -> Exn + Results;
  scan_remote :
    string -> option string -> option RuleParam -> Exn + Results
}.
Record ProjectScanner : Type := mkProjectScanner {
  verify_local : string -> option RuleParam -> Exn + list Verified
}.
Variable get_package_scanner : Ecosystem -> option PackageScanner.
Variable get_project_scanner : Ecosystem -> option ProjectScanner.

(** [os.path.exists] and the text of an ecosystem in a message. *)
Variable path_exists : string -> bool.
Variable show_ecosystem : Ecosystem -> string.

(** [_get_rule_pram] *)
Definition _get_rule_pram (rules exclude_rules : list string)
    (trace : list Event) : Outcome (option RuleParam) * list Event :=
  let rule_param := None in
  let rule_param :=
    if (0 <? length rules)%nat then Some (Requested rules)
    else rule_param in
  if (0 <? length exclude_rules)%nat then
    let rule_param :=
      Some (Remaining (ALL_RULES ∖ list_to_set exclude_rules)) in
    if (0 <? length rules)%nat then
      (Exited 1,
       (trace ++
        [Printed "--rules and --exclude-rules cannot be used together"])
       %list)
    else (Returned rule_param, trace)
  else (Returned rule_param, trace).

(** [exit_with_status_code] on a package report. *)
Definition exit_with_status_code (results : Results) : Outcome unit :=
  let num_issues := match issues results with Some n => n | None => 0%Z end in
  if (0 <? num_issues)%Z then Exited IssuesFound else Returned tt.

Definition printed (l : list string) : list Event := Printed <$> l.

(** [_scan] *)
Definition _scan (identifier : string) (version : option string)
    (rules exclude_rules : list string) (output_format : option string)
    (exit_non_zero_on_finding : bool) (ecosystem : Ecosystem)
    (trace : list Event) : Outcome unit * list Event :=
  match _get_rule_pram rules exclude_rules trace with
  | (Exited c, trace) => (Exited c, trace)
  | (Raised e, trace) => (Raised e, trace)
  | (Returned rule_param, trace) =>
      let trace := (trace ++ [GotScanner ecosystem false])%list in
      match get_package_scanner ecosystem with
      | None =>
          (Exited 1,
           (trace ++
            [ErrWritten ("Command scan is not supported for ecosystem "
                        +:+ show_ecosystem ecosystem)])
           %list)
      | Some scanner =>
          let scanned :=
            if path_exists identifier then
              (match scan_local scanner identifier rule_param with
               | inl e => Raised e
               | inr results => Returned results
               end,
               (trace ++ [ScannedLocal identifier rule_param])%list)
            else
              let trace :=
                (trace ++ [ScannedRemote identifier version rule_param])
                %list in
              match scan_remote scanner identifier version rule_param with
              | inl e =>
                  (Exited 0,
                   (trace ++ [ErrWritten "
"; ErrWritten e])%list)
              | inr results => (Returned results, trace)
              end in
          match scanned with
          | (Exited c, trace) => (Exited c, trace)
          | (Raised e, trace) => (Raised e, trace)
          | (Returned results, trace) =>
              let trace :=
                if bool_decide (output_format = Some "json")
                then (trace ++ [Printed (dumps results)])%list
                else (trace ++
                      printed (print_scan_results results identifier))
                     %list in
              if exit_non_zero_on_finding
              then (exit_with_status_code results, trace)
              else (Returned tt, trace)
          end
      end
  end.

(** The loop of lines 86-90 of [_verify]. *)
Definition print_verified (output_format : option string)
    (results : list Verified) : list Event :=
  match output_format with
  | None =>
      flat_map
        (fun r =>
           let identifier :=
             match version r with
             | None => dependency r
             | Some v => dependency r +:+ " version " +:+ v
             end in
           printed (print_scan_results (result r) identifier))
        results
  | Some _ => []
  end.

(** [_verify]; [None] as returned or printed value is Python's [None].
    [exit_with_status_code] is handed the list of entries, which has no
    [get]. *)
Definition _verify (path : string) (rules exclude_rules : list string)
    (output_format : option string) (exit_non_zero_on_finding : bool)
    (ecosystem : Ecosystem) (trace : list Event)
    : Outcome (option string) * list Event :=
  let return_value := None in
  match _get_rule_pram rules exclude_rules trace with
  | (Exited c, trace) => (Exited c, trace)
  | (Raised e, trace) => (Raised e, trace)
  | (Returned rule_param, trace) =>
      let trace := (trace ++ [GotScanner ecosystem true])%list in
      match get_project_scanner ecosystem with
      | None =>
          (Exited 1,
           (trace ++
            [ErrWritten ("Command verify is not supported for ecosystem "
                        +:+ show_ecosystem ecosystem)])
           %list)
      | Some scanner =>
          let trace := (trace ++ [ScannedLocal path rule_param])%list in
          match verify_local scanner path rule_param with
          | inl e => (Raised e, trace)
          | inr results =>
              let trace :=
                (trace ++ print_verified output_format results)%list in
              let return_value :=
                if bool_decide (output_format = Some "json")
                then Some (dumps_verified results) else return_value in
              let return_value :=
                if bool_decide (output_format = Some "sarif")
                then Some (report_verify_sarif path ALL_RULES results
                             ecosystem)
                else return_value in
              let trace :=
                (trace ++
                 [Printed (match return_value with
                           | Some s => s
                           | None => "None"
                           end)])%list in
              if exit_non_zero_on_finding
              then (Raised "'list' object has no attribute 'get'", trace)
              else (Returned return_value, trace)
          end
      end
  end.

End Commands.

End Cli.

(** ** More of Python's strings *)

Module PyText.

(** [c.isspace()] for a character of a [str]. *)
Definition isspace (c : ascii) : bool :=
  EmptyInformation.isspace (N_of_ascii c).

(** [s.lstrip()], [s.rstrip()] and [s.strip()]. *)
Fixpoint lstrip (s : string) : string :=
  match s with
  | EmptyString => EmptyString
  | String c s' => if isspace c then lstrip s' else s
  end.

Fixpoint rstrip (s : string) : string :=
  match s with
  | EmptyString => EmptyString
  | String c s' =>
      match rstrip s' with
      | EmptyString => if isspace c then EmptyString else String c EmptyString
      | r => String c r
      end
  end.

Definition strip (s : string) : string := rstrip (lstrip s).

(** [c in s] for a character [c]. *)
Fixpoint contains_char (c : ascii) (s : string) : bool :=
  match s with
  | EmptyString => false
  | String d s' => Ascii.eqb c d || contains_char c s'
  end.

(** [s.endswith(suffix)] *)
Fixpoint endswith (s suffix : string) : bool :=
  String.eqb s suffix
  || match s with
     | EmptyString => false
     | String _ s' => endswith s' suffix
     end.

(** [s.replace(old, new)] for a non-empty [old]: the occurrences are found
    from the left and do not overlap.  [skip] counts the characters of an
    occurrence still to be passed over. *)
Fixpoint replace_from (old new : string) (skip : nat) (s : string) : string :=
  match s with
  | EmptyString => EmptyString
  | String c s' =>
      match skip with
      | S k => replace_from old new k s'
      | O =>
          if String.prefix old s
          then new +:+ replace_from old new (String.length old - 1) s'
          else String c (replace_from old new 0 s')
      end
  end.

Definition replace (old new s : string) : string := replace_from old new 0 s.

End PyText.

(** ** [pysecurity/scanners/project_scanner.py], around the resolver *)

Module ProjectScan.
Import PyStr PyText ProjectScanner.

(** The qualifiers that select among the published versions. *)
Definition selecting : list string := [">"; "<"; ">="; "<="; "=="].

Section Sanitize.

(** The class [\w] of [re]. *)
Variable word : ascii -> bool.

(** [re.match(r'\w', s)] finds a match. *)
Definition re_match_word (s : string) : bool :=
  match s with
  | EmptyString => false
  | String c _ => word c
  end.

(** [RequirementsScanner.sanitize_requirements] *)
Definition sanitize_requirements (requirements : list string) : list string :=
  foldl
    (fun sanitized_lines line =>
       let stripped_line := strip line in
       let is_requirement :=
         re_match_word stripped_line
         && (0 <? String.length stripped_line)%nat in
       if is_requirement then (sanitized_lines ++ [stripped_line])%list
       else sanitized_lines)
    [] requirements.

End Sanitize.

Section Scan.

(** The report of one package and [self.package_scanner.scan_remote]. *)
Variable Results : Type.
Variable package_scan_remote : string -> string -> Exn + Results.

(** The loop of lines 111-114 over the versions of one dependency. *)
Fixpoint scan_versions (dependency : string) (versions : list string)
    (project_results : gmap string Results) : Exn + gmap string Results :=
  match versions with
  | [] => inr project_results
  | version :: rest =>
      match package_scan_remote dependency version with
      | inl e => inl e
      | inr package_results =>
          scan_versions dependency rest
            (<[dependency +:+ "/" +:+ version := package_results]>
               project_results)
      end
  end.

(** The loop of lines 110-114 over [dependencies.items()]; each set is
    given as the list of its members in the order they are walked, and
    [None] cannot be walked. *)
Fixpoint scan_items (items : list (string * option (list string)))
    (project_results : gmap string Results) : Exn + gmap string Results :=
  match items with
  | [] => inr project_results
  | (dependency, None) :: _ => inl "'NoneType' object is not iterable"
  | (dependency, Some versions) :: rest =>
      match scan_versions dependency versions project_results with
      | inl e => inl e
      | inr project_results => scan_items rest project_results
      end
  end.

(** The order in which a dictionary of dependencies and its sets are
    walked. *)
Variable walk :
  gmap string (option (gset string)) -> list (string * option (list string)).

Variable releases : string -> Exn + list string.
Variable re_search : string -> string -> Exn + bool.

(** [RequirementsScanner.scan_requirements], from the parsed lines on; the
    progress bar is left out.  The second component is the text written to
    [sys.stderr]. *)
Definition scan_requirements (parsed : list (Exn + Requirement))
    : (Exn + gmap string Results) * list string :=
  let (dependencies, err) := parse_requirements releases re_search parsed in
  (scan_items (walk dependencies) ∅, err).

(** [open(path).readlines()] followed by the sanitizer and
    [pkg_resources.parse_requirements], or the exception of [open]. *)
Variable read_requirements : string -> Exn + list (Exn + Requirement).

(** [RequirementsScanner.scan_local]: how the call ends, what it writes to
    [sys.stdout] and to [sys.stderr]. *)
Definition scan_local (path : string)
    : Cli.Outcome (gmap string Results) * list string * list string :=
  match read_requirements path with
  | inl e => (Cli.Exited 255, ["Received " +:+ e], [])
  | inr parsed =>
      match scan_requirements parsed with
      | (inl e, err) => (Cli.Exited 255, ["Received " +:+ e], err)
      | (inr project_results, err) => (Cli.Returned project_results, [], err)
      end
  end.

End Scan.

End ProjectScan.

(** ** [guarddog/scanners/pypi_project_scanner.py], the sanitizer *)

Module PypiSanitize.
Import PyText.

Section Sanitize.

(** The class [\w] of [re]. *)
Variable word : ascii -> bool.

(** The backslash. *)
Definition backslash : ascii := ascii_of_nat 92.

(** One turn of the loop of lines 39-47. *)
Definition sanitize_line (sanitized_lines : list string) (line : string)
    : list string :=
  if ProjectScan.re_match_word word line then
    let line :=
      if contains_char backslash line
      then replace (String backslash EmptyString) "" line
      else line in
    let stripped_line := strip line in
    if (0 <? String.length stripped_line)%nat
    then (sanitized_lines ++ [stripped_line])%list
    else sanitized_lines
  else sanitized_lines.

(** [PypiRequirementsScanner._sanitize_requirements] *)
Definition _sanitize_requirements (requirements : list string) : list string :=
  foldl sanitize_line [] requirements.

End Sanitize.

End PypiSanitize.

(** ** [pysecurity/analyzer/analyzer.py], around the two dispatches *)

Module AnalyzerInit.
Import PyText.

(** The local function [get_rules] of [Analyzer.__init__], on the names
    [os.listdir(path)] gives. *)
Definition get_rules (file_extension : string) (listing : list string)
    : gset string :=
  list_to_set
    ((fun rule => replace file_extension "" rule)
       <$> List.filter (fun rule => endswith rule file_extension) listing).

(** [self.sourcecode_ruleset] *)
Definition sourcecode_ruleset (listing : list string) : gset string :=
  get_rules ".yml" listing.

(** [self.metadata_ruleset] after [remove("detector")], which raises
    [KeyError] when the set has no such member. *)
Definition metadata_ruleset (listing : list string) : Exn + gset string :=
  let rules := get_rules ".py" listing in
  if bool_decide ("detector" ∈ rules) then inr (rules ∖ {["detector"]})
  else inl "'detector'".

End AnalyzerInit.

Module AnalyzerDispatch.
Import Analyzer.

(** A value of the dictionary [analyze] returns: what a detector returned,
    or the locations of a sourcecode rule. *)
Inductive RuleResult (Result : Type) : Type :=
| Detected (value : Result)
| Located (locations : gmap string string).
Arguments Detected {Result} value.
Arguments Located {Result} locations.

Section Analyze.

Variables Info Result : Type.
Variable metadata_ruleset : list string.
Variable metadata_detectors : gmap string (Info -> Exn + Result).
Variable sourcecode_path : string.
Variable sourcecode_ruleset : list string.
Variable path_join : string -> string -> string.
Variable abspath : string -> string.
Variable relpath : string -> string -> string.
Variable invoke_semgrep :
  string -> list string -> list string -> Exn + list Finding.

(** The order in which a set of rules is walked. *)
Variable walk : gset string -> list string.

(** The loop of lines 72-78: the rules are sorted into the two sets, a
    rule of neither catalog raises. *)
Fixpoint classify (rules : list string)
    (sourcecode_rules metadata_rules : gset string)
    : Exn + gset string * gset string :=
  match rules with
  | [] => inr (sourcecode_rules, metadata_rules)
  | rule :: rest =>
      if bool_decide (rule ∈ sourcecode_ruleset)
      then classify rest ({[rule]} ∪ sourcecode_rules) metadata_rules
      else if bool_decide (rule ∈ metadata_ruleset)
      then classify rest sourcecode_rules ({[rule]} ∪ metadata_rules)
      else inl (rule +:+ " is not a valid rule.")
  end.

(** [metadata | sourcecode] on the two dictionaries. *)
Definition both (metadata : gmap string Result)
    (sourcecode : gmap string (gmap string string))
    : gmap string (RuleResult Result) :=
  dict_or (Detected <$> metadata) (Located <$> sourcecode).

(** The two dispatches, the metadata first. *)
Definition dispatch (path : string) (info : Info)
    (metadata_rules sourcecode_rules : option (list string))
    : (Exn + gmap string (RuleResult Result)) * list string :=
  let (metadata, err) :=
    analyze_metadata Info Result metadata_ruleset metadata_detectors
      info metadata_rules in
  match analyze_sourcecode sourcecode_path sourcecode_ruleset path_join
          abspath relpath invoke_semgrep path sourcecode_rules with
  | inl e => (inl e, err)
  | inr sourcecode => (inr (both metadata sourcecode), err)
  end.

(** [Analyzer.analyze]: the dictionary or the exception, and the text
    written to [sys.stderr]. *)
Definition analyze (path : string) (info : Info)
    (rules : option (list string))
    : (Exn + gmap string (RuleResult Result)) * list string :=
  match rules with
  | None => dispatch path info None None
  | Some rules =>
      match classify rules ∅ ∅ with
      | inl e => (inl e, [])
      | inr (sourcecode_rules, metadata_rules) =>
          dispatch path info (Some (walk metadata_rules))
            (Some (walk sourcecode_rules))
      end
  end.

End Analyze.

End AnalyzerDispatch.

(** ** [pysecurity/scanners/project_scanner.py], the remote scan *)

Module ProjectRemote.
Import PyText ProjectScanner.

(** Lines 131-133: the address the requirements are fetched from. *)
Definition requirements_url (url branch requirements_name : string)
    : string :=
  replace "github" "raw.githubusercontent" url
  +:+ "/" +:+ branch +:+ "/" +:+ requirements_name.

Section Remote.

Variable Results : Type.

(** [os.getenv] *)
Variable getenv : string -> option string.

(** [requests.get(url=req_url, auth=token)]: the status code with the
    content, decoded, split in lines, sanitized and parsed; or the
    exception raised. *)
Variable http_get :
  string -> string * string -> Exn + Z * list (Exn + Requirement).

(** [self.scan_requirements], from the parsed lines on. *)
Variable scan_requirements :
  list (Exn + Requirement) -> (Exn + gmap string Results) * list string.

(** [RequirementsScanner._authenticate_by_access_token]: the pair, or the
    exit, and what is printed. *)
Definition _authenticate_by_access_token
    : Cli.Outcome (string * string) * list string :=
  match getenv "GIT_USERNAME", getenv "GH_TOKEN" with
  | Some user, Some personal_access_token =>
      (Cli.Returned (user, personal_access_token), [])
  | _, _ =>
      (Cli.Exited 1,
       ["WARNING: Please set GIT_USERNAME (Github handle) and GH_TOKEN "
        +:+ "(generate a personal access token in Github settings > "
        +:+ "developer) as environment variables before proceeding."])
  end.

(** What [scan_remote] leaves behind: how the call ends, the text on
    [sys.stdout], the text on [sys.stderr], the addresses requested. *)
Record Remote : Type := mkRemote {
  outcome : Cli.Outcome (gmap string Results);
  printed : list string;
  errors : list string;
  requested : list string
}.

(** [RequirementsScanner.scan_remote] *)
Definition scan_remote (url branch requirements_name : string) : Remote :=
  match _authenticate_by_access_token with
  | (Cli.Exited code, out) => mkRemote (Cli.Exited code) out [] []
  | (Cli.Raised e, out) => mkRemote (Cli.Raised e) out [] []
  | (Cli.Returned token, out) =>
      let req_url := requirements_url url branch requirements_name in
      match http_get req_url token with
      | inl e => mkRemote (Cli.Raised e) out [] [req_url]
      | inr (status_code, parsed) =>
          if (status_code =? 200)%Z then
            match scan_requirements parsed with
            | (inl e, err) => mkRemote (Cli.Raised e) out err [req_url]
            | (inr project_results, err) =>
                mkRemote (Cli.Returned project_results) out err [req_url]
            end
          else
            mkRemote (Cli.Exited 255)
              (out ++ [req_url +:+ " does not exist. "
                       +:+ "Check your link or branch name."])%list
              [] [req_url]
      end
  end.

End Remote.

End ProjectRemote.

(** ** Sample registries, engines and scanners *)

Module Samples.
Import PyStr Analyzer EmptyInformation Cli.

(** The registry of the examples: one package with the given releases. *)
Definition registry_of (keys : list string) : string -> Exn + list string :=
  fun _ => inr keys.

(** A registry that knows [pkg] only. *)
Definition registry_with (pkg : string) (keys : list string)
    : string -> Exn + list string :=
  fun name => if String.eqb name pkg then inr keys else inl "'releases'".

(** A pattern engine that finds the pattern when it is the candidate. *)
Definition search_exact : string -> string -> Exn + bool :=
  fun pattern candidate => inr (String.eqb pattern candidate).

(** A specifier that every published version satisfies, such as
    [>=1.0] for the releases 1.9 and 1.10. *)
Definition satisfied_by_all : string -> list string -> option (list string) :=
  fun _ versions => Some versions.

(** Three detectors, one of which raises. *)
Definition sample_detectors : gmap string (unit -> Exn + bool) :=
  {[ "typosquatting" := fun _ => inr false;
     "compromised_email" := fun _ => inl "timed out";
     "empty_information" := fun _ => inr true ]}.

(** A description of a space, a tab and a newline. *)
Definition blank_package : pyval :=
  PyDict [("info", PyDict [("name", PyStr [112; 107; 103]%N);
                           ("description", PyStr [32; 9; 10]%N)])].

(** A command line whose scanners find nothing. *)
Definition quiet_package_scanner : PackageScanner unit :=
  mkPackageScanner unit (fun _ _ => inr tt) (fun _ _ _ => inr tt).
Definition quiet_project_scanner : ProjectScanner unit :=
  mkProjectScanner unit (fun _ _ => inr []).
Definition two_rules : gset string := {["typosquatting"; "shady-links"]}.

(** A catalog of two rules and an engine that files two matches under the
    first, at the same line, and one under the second. *)
Definition sample_ruleset : list string := ["exec-base64"; "shady-links"].

Definition sample_join (a b : string) : string := a +:+ "/" +:+ b.
Definition sample_abspath (p : string) : string := "/tmp/pkg/" +:+ p.
Definition sample_relpath (file target : string) : string :=
  String.substring (String.length target + 1)
    (String.length file - (String.length target + 1)) file.

Definition sample_batch : list Finding :=
  [mkFinding "rules.exec-base64" "setup.py" 3 "exec(b64decode(a))";
   mkFinding "rules.shady-links" "util.py" 7 "get('http://bit.ly/x')";
   mkFinding "rules.exec-base64" "setup.py" 3 "exec(b64decode(b))"].

Definition sample_answer (rule : string) : list Finding :=
  if String.eqb rule "exec-base64" then
    [mkFinding "exec-base64" "setup.py" 3 "exec(b64decode(a))";
     mkFinding "exec-base64" "setup.py" 3 "exec(b64decode(b))"]
  else if String.eqb rule "shady-links" then
    [mkFinding "shady-links" "util.py" 7 "get('http://bit.ly/x')"]
  else [].

Definition sample_engine (config : string) (targets exclude : list string)
    : Exn + list Finding :=
  if String.eqb config "rules" then inr sample_batch
  else if String.eqb config "rules/exec-base64.yml"
  then inr (sample_answer "exec-base64")
  else if String.eqb config "rules/shady-links.yml"
  then inr (sample_answer "shady-links")
  else inl "invalid configuration".

Definition sample_analyze :=
  analyze_sourcecode "rules" sample_ruleset sample_join sample_abspath
    sample_relpath sample_engine.

(** The letters, digits and underscore of ASCII as word characters. *)
Definition ascii_word (c : ascii) : bool :=
  let n := N_of_ascii c in
  ((48 <=? n) && (n <=? 57) || (65 <=? n) && (n <=? 90)
   || (97 <=? n) && (n <=? 122) || (n =? 95))%N.

(** A dictionary and its sets walked in the order of their enumeration,
    and a package scanner that names what it scanned. *)
Definition sample_walk (dependencies : gmap string (option (gset string)))
    : list (string * option (list string)) :=
  (fun item : string * option (gset string) =>
     (item.1, elements <$> item.2))
    <$> map_to_list dependencies.

Definition sample_package_scan (dependency version : string) : Exn + string :=
  inr (dependency +:+ "@" +:+ version).

(** A file with one requirement that has no constraint. *)
Definition bare_requirement : list (Exn + ProjectScanner.Requirement) :=
  [inr (ProjectScanner.mkRequirement "requests" [])].

(** A specifier [packaging] rejects. *)
Definition rejected : string -> list string -> option (list string) :=
  fun _ _ => None.

(** A [Specifier] that takes one clause: a text with a comma raises
    [InvalidSpecifier], a [ValueError]; any other keeps every version. *)
Definition single_clause : string -> list string -> option (list string) :=
  fun semver_range versions =>
    if PyText.contains_char "," semver_range then None else Some versions.

(** The two catalogs of the sample analyzer. *)
Definition sample_metadata_ruleset : list string :=
  ["typosquatting"; "compromised_email"; "empty_information"].

Definition sample_analyze_all :=
  AnalyzerDispatch.analyze unit bool sample_metadata_ruleset sample_detectors
    "rules" sample_ruleset sample_join sample_abspath sample_relpath
    sample_engine elements.

(** A package scanner whose remote scan raises, and a report of two
    issues. *)
Definition unreachable_package_scanner : PackageScanner unit :=
  mkPackageScanner unit (fun _ _ => inr tt) (fun _ _ _ => inl "not found").

Definition two_issues : unit -> option Z := fun _ => Some 2%Z.

End Samples.

(** * Properties *)

Import Samples.

(** ** Python strings: sorting *)

Section Sorting.
Import PyStr.

Lemma str_le_spec (a b : string) :
  str_le a b = true ↔ a = b ∨ String_as_OT.lt a b.
Proof.
  unfold str_le. destruct (String.compare a b) eqn:E.
  - apply String_as_OT.cmp_eq in E. tauto.
  - apply String_as_OT.cmp_lt in E. tauto.
  - split; [discriminate|]. intros [H|H].
    + apply String_as_OT.cmp_eq in H. unfold String_as_OT.cmp in H. congruence.
    + apply String_as_OT.cmp_lt in H. unfold String_as_OT.cmp in H. congruence.
Qed.

Lemma str_le_refl (a : string) : str_le a a = true.
Proof. apply str_le_spec. by left. Qed.

Lemma str_le_trans (a b c : string) :
  str_le a b = true → str_le b c = true → str_le a c = true.
Proof.
  rewrite !str_le_spec. intros [->|Hab] [->|Hbc]; auto.
  right. eapply String_as_OT.lt_trans; eauto.
Qed.

Lemma str_le_total (a b : string) :
  str_le a b = false → str_le b a = true.
Proof.
  unfold str_le. rewrite (String.compare_antisym b a).
  by destruct (String.compare a b).
Qed.

Lemma insert_asc_elem (x y : string) (l : list string) :
  y ∈ insert_asc x l ↔ y = x ∨ y ∈ l.
Proof.
  induction l as [|z l IH]; simpl.
  - rewrite elem_of_cons. split; [tauto|].
    intros [H|H]; [by left|]. destruct (not_elem_of_nil _ H).
  - destruct (str_le x z).
    + rewrite elem_of_cons. tauto.
    + rewrite !elem_of_cons, IH. tauto.
Qed.

Lemma sorted_elem (y : string) (l : list string) : y ∈ sorted l ↔ y ∈ l.
Proof.
  unfold sorted. induction l as [|x l IH]; simpl; [done|].
  rewrite insert_asc_elem, IH, elem_of_cons. tauto.
Qed.

Lemma sorted_not_nil (l : list string) : l ≠ [] → sorted l ≠ [].
Proof.
  destruct l as [|x l]; [done|]. intros _ Hnil.
  assert (H : x ∈ sorted (x :: l)) by (apply sorted_elem; left).
  rewrite Hnil in H. exact (not_elem_of_nil _ H).
Qed.


Lemma insert_asc_ascending (x : string) (l : list string) :
  ascending l → ascending (insert_asc x l).
Proof.
  unfold ascending. induction 1 as [|z l Hl IH Hz]; simpl.
  - repeat constructor.
  - destruct (str_le x z) eqn:E.
    + constructor; [by constructor|]. constructor; [done|].
      eapply Forall_impl; [exact Hz|]. intros w Hw. simpl in Hw.
      eapply str_le_trans; eauto.
    + constructor; [done|]. apply Forall_forall. intros w Hw.
      apply insert_asc_elem in Hw as [->|Hw].
      * by apply str_le_total.
      * rewrite Forall_forall in Hz. by apply Hz.
Qed.

Lemma sorted_ascending (l : list string) : ascending (sorted l).
Proof.
  unfold sorted. induction l as [|x l IH]; simpl.
  - constructor.
  - by apply insert_asc_ascending.
Qed.

Lemma ascending_last (l : list string) (v : string) :
  ascending l → last_item l = Some v → ∀ x, x ∈ l → str_le x v = true.
Proof.
  unfold ascending, last_item. induction 1 as [|z l Hl IH Hz]; [done|].
  intros Hlast x Hx. destruct l as [|z' l'].
  - simpl in Hlast. injection Hlast as <-.
    apply list_elem_of_singleton in Hx as ->. apply str_le_refl.
  - change (last (z :: z' :: l')) with (last (z' :: l')) in Hlast.
    apply elem_of_cons in Hx as [->|Hx]; [|by apply IH].
    rewrite Forall_forall in Hz. apply Hz.
    apply last_Some_elem_of in Hlast. done.
Qed.

End Sorting.

(** ** The resolver of [pysecurity] *)

Section ResolverFacts.
Import PyStr ProjectScanner.

Variable releases : string -> Exn + list string.
Variable re_search : string -> string -> Exn + bool.

(** A further constraint narrows the set held so far. *)
Lemma resolve_specs_narrow (name q v : string)
    (rest : list (string * string))
    (available : list string) (valid used : gset string)
    (err : list string) :
  versions releases name = inr available →
  used_versions_of re_search q v available = inr (Used (Some used)) →
  resolve_specs releases re_search name ((q, v) :: rest) (Some valid) err
  = resolve_specs releases re_search name rest (Some (valid ∩ used)) err.
Proof. intros Hv Hu. simpl. by rewrite Hv, Hu. Qed.

(** The four comparisons select the candidates that compare so with the
    bound as [str]. *)
Lemma comparison_branch (qualifier version : string)
    (compare : string -> string -> bool) (available : list string) :
  (qualifier, compare)
    ∈ [(">", str_gt); ("<", str_lt); (">=", str_ge); ("<=", str_le)] →
  used_versions_of re_search qualifier version available
  = inr (Used (Some (list_to_set
      (List.filter (fun v => compare v version) available)))).
Proof.
  intros H.
  repeat (apply elem_of_cons in H as [H|H];
          [injection H as -> ->; reflexivity|]).
  destruct (not_elem_of_nil _ H).
Qed.

(** Constraints that each select a set narrow the set held so far, one
    after the other. *)
Lemma resolve_specs_selected (name : string) (l : list (string * string))
    (available : list string) (sets : list (gset string))
    (valid : gset string) (err : list string) :
  versions releases name = inr available →
  Forall2 (fun c u =>
             used_versions_of re_search c.1 c.2 available
             = inr (Used (Some u))) l sets →
  resolve_specs releases re_search name l (Some valid) err
  = (inr (Some (foldl (∩) valid sets)), err).
Proof.
  intros Hv H. revert valid.
  induction H as [|[q v] u l sets Hu _ IH]; intros valid; [done|].
  rewrite (resolve_specs_narrow _ _ _ _ _ _ _ _ Hv Hu). apply IH.
Qed.

Lemma elem_of_foldl_intersection (x : string) (valid : gset string)
    (sets : list (gset string)) :
  x ∈ foldl (∩) valid sets ↔ x ∈ valid ∧ Forall (fun u => x ∈ u) sets.
Proof.
  revert valid. induction sets as [|u sets IH]; intros valid.
  - cbn [foldl]. split; [by intros ?; split|by intros [? _]].
  - cbn [foldl]. rewrite IH, Forall_cons, elem_of_intersection. tauto.
Qed.

(** When the version list of a package cannot be fetched, every one of
    its constraints is skipped and [valid_versions] stays as it was. *)
Lemma resolve_specs_unfetched (name : string) (e : Exn)
    (l : list (string * string)) (valid : option (gset string))
    (err : list string) :
  releases name = inl e →
  fst (resolve_specs releases re_search name l valid err) = inr valid.
Proof.
  intros He. revert err.
  induction l as [|[q v] l IH]; intros err; simpl; [done|].
  unfold versions. rewrite He. apply IH.
Qed.

End ResolverFacts.

Section ResolverClaims.
Import PyStr ProjectScanner.

(** C1, at the failing input.  For the single constraint ("~=", "1.4")
    and the published versions 1.3, 1.4, 1.4.2, 1.5 and 2.0, the resolver
    walks the versions from the highest down, stops at the first one that
    is at least the bound and starts with the bound's segments but the
    last, which is 1.5, and binds the package to [set("1.5")], the
    characters 1, . and 5; the claim has {1.4, 1.4.2}. *)
Theorem compatible_release_returns_characters
    (re_search : string -> string -> Exn + bool) :
  let releases := registry_of ["1.3"; "1.4"; "1.4.2"; "1.5"; "2.0"] in
  versions releases "pkg" = inr ["2.0"; "1.5"; "1.4.2"; "1.4"; "1.3"]
  ∧ compatible_prefix "1.4" = "1"
  ∧ compatible_pick "1.4" ["2.0"; "1.5"; "1.4.2"; "1.4"; "1.3"] = Some "1.5"
  ∧ parse_requirements releases re_search
      [inr (mkRequirement "pkg" [("~=", "1.4")])]
    = ({["pkg" := Some {["1"; "."; "5"]}]}, [])
  ∧ ({["1"; "."; "5"]} : gset string) ≠ {["1.4"; "1.4.2"]}.
Proof.
  repeat split. vm_compute. discriminate.
Qed.

(** C2, at the failing input.  With the releases 1.9 and 1.10, the
    constraint (">", "1.9") selects nothing, although 1.10 is above 1.9
    in version order: the candidates are compared as strings. *)
Theorem greater_than_compares_strings
    (re_search : string -> string -> Exn + bool) :
  parse_requirements (registry_of ["1.9"; "1.10"]) re_search
    [inr (mkRequirement "pkg" [(">", "1.9")])]
  = ({["pkg" := Some ∅]}, [])
  ∧ str_gt "1.10" "1.9" = false
  ∧ VersionOrder.version_lt "1.9" "1.10" = true.
Proof. repeat split. Qed.

(** X30.  The constraints of one requirement line are intersected: for
    (">=", "1.0") and ("<", "2.0") and the published versions 0.9, 1.0,
    1.5, 1.9, 2.0 and 2.1 pysecurity's resolver returns exactly
    {1.0, 1.5, 1.9}; and whenever the constraints of the only line of a
    manifest each select a set, its package is resolved to the
    intersection of these sets. *)
Theorem constraints_intersect
    (re_search : string -> string -> Exn + bool) :
  parse_requirements
    (registry_of ["0.9"; "1.0"; "1.5"; "1.9"; "2.0"; "2.1"]) re_search
    [inr (mkRequirement "pkg" [(">=", "1.0"); ("<", "2.0")])]
  = ({["pkg" := Some {["1.0"; "1.5"; "1.9"]}]}, [])
  ∧ ∀ (releases : string -> Exn + list string) (name : string)
      (constraints : list (string * string)) (available : list string)
      (sets : list (gset string)),
      versions releases name = inr available →
      constraints ≠ [] →
      Forall2 (fun c u =>
                 used_versions_of re_search c.1 c.2 available
                 = inr (Used (Some u))) constraints sets →
      ∃ resolved : gset string,
        parse_requirements releases re_search
          [inr (mkRequirement name constraints)]
        = ({[name := Some resolved]}, [])
        ∧ ∀ x, x ∈ resolved ↔ Forall (fun u => x ∈ u) sets.
Proof.
  split; [vm_compute; reflexivity|].
  intros releases name constraints available sets Hv Hne H.
  destruct H as [|[q v] u constraints sets Hu H]; [done|].
  exists (foldl (∩) u sets). split.
  - unfold parse_requirements. cbn [resolve_all project_name specs].
    cbn [resolve_specs]. rewrite Hv. cbn [fst snd] in Hu. rewrite Hu.
    cbn [combine].
    rewrite (resolve_specs_selected _ _ _ _ _ _ _ _ Hv H).
    by rewrite insert_empty.
  - intros x. by rewrite elem_of_foldl_intersection, Forall_cons.
Qed.

(** Three constraints on one package. *)
Lemma constraints_intersect_witness :
  ∃ resolved : gset string,
    parse_requirements (registry_of ["3.1"; "2.5"; "2.0"; "1.0"]) search_exact
      [inr (mkRequirement "lib" [("<=", "3.0"); ("==", "2.5"); (">", "1")])]
    = ({["lib" := Some resolved]}, [])
    ∧ ∀ x, x ∈ resolved
           ↔ Forall (fun u : gset string => x ∈ u)
               [{["2.5"; "2.0"; "1.0"]}; {["2.5"]};
                {["3.1"; "2.5"; "2.0"; "1.0"]}].
Proof.
  apply (proj2 (constraints_intersect search_exact)
           (registry_of ["3.1"; "2.5"; "2.0"; "1.0"]) "lib"
           [("<=", "3.0"); ("==", "2.5"); (">", "1")]
           ["3.1"; "2.5"; "2.0"; "1.0"]).
  - reflexivity.
  - discriminate.
  - repeat constructor.
Defined.

(** C8, at the failing input.  When the version list of [ghost] cannot
    be fetched, a diagnostic is written and [pkg] is still resolved, but
    [ghost] is in the returned dictionary, bound to [None]. *)
Theorem unfetched_package_is_bound_to_none
    (re_search : string -> string -> Exn + bool) :
  let result :=
    parse_requirements (registry_with "pkg" ["1.0"; "2.0"]) re_search
      [inr (mkRequirement "ghost" [(">=", "1.0")]);
       inr (mkRequirement "pkg" [("<", "2.0")])] in
  fst result !! "ghost" = Some None
  ∧ fst result !! "pkg" = Some (Some {["1.0"]})
  ∧ snd result = ["Package ghost not on PyPI"].
Proof. repeat split. Qed.

End ResolverClaims.

(** ** The resolver of [guarddog] *)

Section BestMatch.
Import PyStr PypiProjectScanner.

Variable releases : string -> Exn + list string.
Variable specifier_filter : string -> list string -> option (list string).

(** In best-match mode a non-empty list of candidates is cut down to one
    of its members, the greatest as [str]. *)
Lemma best_matched_greatest_string (result : list string) :
  result ≠ [] →
  ∃ v, best_matched false result = inr [v]
       ∧ v ∈ result
       ∧ ∀ x, x ∈ result → str_le x v = true.
Proof.
  intros Hne. unfold best_matched.
  destruct result as [|r0 result]; [done|].
  cbn [negb length Nat.eqb andb].
  destruct (last_item (sorted (r0 :: result))) as [v|] eqn:Hlast.
  - exists v. split; [done|]. split.
    + apply sorted_elem. unfold last_item in Hlast.
      by apply last_Some_elem_of in Hlast.
    + intros x Hx. eapply ascending_last; eauto using sorted_ascending.
      by apply sorted_elem.
  - unfold last_item in Hlast. apply last_None in Hlast.
    by apply sorted_not_nil in Hlast.
Qed.

(** In exhaustive mode the candidates are kept as they are. *)
Lemma best_matched_exhaustive (result : list string) :
  best_matched true result = inr result.
Proof. reflexivity. Qed.

(** A package whose version list cannot be fetched is left out of the
    dictionary, and a diagnostic is written for it. *)
Lemma unfetched_left_out (exhaustive : bool) (name : string) (e : Exn)
    (parsed : list (Exn + Requirement))
    (dependencies : gmap string (gset string)) (err : list string) :
  releases name = inl e →
  fst (resolve_all releases specifier_filter exhaustive
         parsed dependencies err) !! name
  = dependencies !! name.
Proof.
  intros He. revert dependencies err.
  induction parsed as [|[e'|req] parsed IH]; intros deps err; simpl.
  - done.
  - apply IH.
  - destruct (find_all_versions _ _ _ _ _) as [e'|vs] eqn:Hf.
    + apply IH.
    + rewrite IH. apply lookup_insert_ne. intros Heq.
      unfold find_all_versions in Hf. by rewrite Heq, He in Hf.
Qed.

Lemma unfetched_absent (exhaustive : bool) (name : string) (e : Exn)
    (parsed : list (Exn + Requirement)) :
  releases name = inl e →
  fst (parse_requirements releases specifier_filter exhaustive parsed)
    !! name = None.
Proof.
  intros He. unfold parse_requirements.
  by rewrite (unfetched_left_out _ _ _ _ _ _ He).
Qed.

End BestMatch.

Section BestMatchClaims.
Import PyStr PypiProjectScanner.


(** C3, at the failing input.  In best-match mode, with the releases 1.9
    and 1.10 both satisfying the specifier, the one version returned is
    1.9, although 1.10 is the maximum in version order: the candidates
    are sorted as strings. *)
Theorem best_match_sorts_strings :
  find_all_versions (registry_of ["1.9"; "1.10"]) satisfied_by_all false
    "pkg" ">=1.0"
  = inr {["1.9"]}
  ∧ sorted ["1.9"; "1.10"] = ["1.10"; "1.9"]
  ∧ VersionOrder.version_lt "1.9" "1.10" = true.
Proof. repeat split. Qed.

(** C4, at the failing input.  [pkg_resources] gives the line
    [pkg>=1.0,<2.0] the specifier text [<2.0,>=1.0].  [Specifier] of
    [packaging] takes one clause and raises [InvalidSpecifier], a
    [ValueError], on this text; guarddog's [find_all_versions] then keeps
    the text raw, and with the published versions 0.9, 1.0, 1.5, 1.9, 2.0
    and 2.1 it returns the set of this text alone, in both modes, where
    the claim has {1.0, 1.5, 1.9}.  pysecurity's resolver does return
    {1.0, 1.5, 1.9} for the two constraints on one line; for the same two
    constraints on two lines it returns what the second line selects,
    {0.9, 1.0, 1.5, 1.9}: the later line replaces the earlier one. *)
Theorem comma_specifier_returned_raw
    (specifier_filter : string -> list string -> option (list string))
    (re_search : string -> string -> Exn + bool) (exhaustive : bool) :
  let releases := registry_of ["0.9"; "1.0"; "1.5"; "1.9"; "2.0"; "2.1"] in
  (∀ versions, specifier_filter "<2.0,>=1.0" versions = None) →
  find_all_versions releases specifier_filter exhaustive "pkg" "<2.0,>=1.0"
  = inr {["<2.0,>=1.0"]}
  ∧ parse_requirements releases specifier_filter exhaustive
      [inr (mkRequirement "pkg" None "<2.0,>=1.0")]
    = ({["pkg" := {["<2.0,>=1.0"]}]}, [])
  ∧ ({["<2.0,>=1.0"]} : gset string) ≠ {["1.0"; "1.5"; "1.9"]}
  ∧ ProjectScanner.parse_requirements releases re_search
      [inr (ProjectScanner.mkRequirement "pkg" [(">=", "1.0"); ("<", "2.0")])]
    = ({["pkg" := Some {["1.0"; "1.5"; "1.9"]}]}, [])
  ∧ ProjectScanner.parse_requirements releases re_search
      [inr (ProjectScanner.mkRequirement "pkg" [(">=", "1.0")]);
       inr (ProjectScanner.mkRequirement "pkg" [("<", "2.0")])]
    = ({["pkg" := Some {["0.9"; "1.0"; "1.5"; "1.9"]}]}, []).
Proof.
  intros releases Hraise.
  assert (find_all_versions releases specifier_filter exhaustive
            "pkg" "<2.0,>=1.0" = inr {["<2.0,>=1.0"]}) as Hfind.
  { unfold find_all_versions. cbn [releases registry_of].
    rewrite Hraise. by destruct exhaustive. }
  split; [exact Hfind|]. split.
  - unfold parse_requirements.
    cbn [resolve_all semver_range_of url specifier project_name].
    rewrite Hfind. by rewrite insert_empty.
  - split; [vm_compute; discriminate|].
    split; vm_compute; reflexivity.
Qed.

(** A [Specifier] that takes one clause, in best-match mode. *)
Lemma comma_specifier_returned_raw_witness :
  find_all_versions
    (registry_of ["0.9"; "1.0"; "1.5"; "1.9"; "2.0"; "2.1"]) single_clause
    false "pkg" "<2.0,>=1.0"
  = inr {["<2.0,>=1.0"]}.
Proof.
  apply (comma_specifier_returned_raw single_clause search_exact false).
  intros versions. reflexivity.
Defined.

End BestMatchClaims.

(** ** The metadata dispatch *)

Section MetadataDispatch.
Import Analyzer.

Context {Info Result : Type}.
Variable metadata_ruleset : list string.
Variable metadata_detectors : gmap string (Info -> Exn + Result).

#[local] Abbreviation run := (run_detector Info Result metadata_detectors).
#[local] Abbreviation step := (analyze_rule Info Result metadata_detectors).

(** What the loop leaves under a rule: the value its detector returns
    when the rule is walked, and what was there before otherwise. *)
Lemma analyze_rules_lookup (info : Info) (rules : list string)
    (results : gmap string Result) (err : list string) (r : string) :
  fst (foldl (step info) (results, err) rules) !! r
  = if decide (r ∈ rules)
    then match run r info with
         | inr value => Some value
         | inl _ => results !! r
         end
    else results !! r.
Proof.
  revert results err.
  induction rules as [|x rules IH]; intros results err.
  - cbn [foldl fst]. by rewrite decide_False by apply not_elem_of_nil.
  - cbn [foldl]. unfold analyze_rule at 2.
    destruct (decide (x = r)) as [->|Hne].
    + rewrite (decide_True (P := r ∈ r :: rules)) by left.
      destruct (run r info) as [e|v] eqn:Hrun; rewrite IH.
      * by destruct (decide (r ∈ rules)).
      * destruct (decide (r ∈ rules)); [done|]. apply lookup_insert_eq.
    + assert (Hiff : r ∈ x :: rules ↔ r ∈ rules).
      { rewrite elem_of_cons. split; [intros [Heq|]; congruence || done|auto]. }
      destruct (run x info) as [e|v]; rewrite IH.
      * destruct (decide (r ∈ rules)), (decide (r ∈ x :: rules));
          tauto || done.
      * rewrite lookup_insert_ne by done.
        destruct (decide (r ∈ rules)), (decide (r ∈ x :: rules));
          tauto || done.
Qed.




End MetadataDispatch.



(** ** The empty-description detector *)

Section EmptyDescription.
Import EmptyInformation.

(** [split] finds no word exactly when no word is being read and only
    white space follows. *)
Lemma split_from_nil (s word : list N) :
  split_from word s = [] ↔ word = [] ∧ forallb isspace s = true.
Proof.
  revert word. induction s as [|c s IH]; intros word; simpl.
  - destruct word; split; try done. by intros [? _].
  - destruct (isspace c) eqn:Hc; simpl.
    + destruct word as [|w word].
      * apply IH.
      * split; [done|]. by intros [? _].
    + rewrite IH. split; [by intros [? _]|by intros [_ ?]].
Qed.

Lemma split_nil (s : list N) :
  split s = [] ↔ Forall (fun c => isspace c = true) s.
Proof.
  unfold split. rewrite split_from_nil, forallb_forall, Forall_forall.
  split.
  - intros [_ H] c Hc. apply H. by apply list_elem_of_In.
  - intros H. split; [done|]. intros c Hc. apply H. by apply list_elem_of_In.
Qed.

(** C9.  When [package_info["info"]["description"]] is the string [d],
    [detect] returns, and it returns [True] exactly when every character of
    [d] is white space; so it does for the empty string and for a string
    of spaces, tabs and newlines only. *)
Theorem detect_blank_description (package_info info : pyval) (d : list N) :
  subscript package_info "info" = inr info →
  subscript info "description" = inr (PyStr d) →
  ∃ b : bool,
    detect package_info = inr b
    ∧ (b = true ↔ Forall (fun c => isspace c = true) d)
    ∧ (Forall (fun c => c = 32%N ∨ c = 9%N ∨ c = 10%N) d → b = true).
Proof.
  intros Hinfo Hdesc. unfold detect. rewrite Hinfo, Hdesc.
  cbn [call_split]. eexists. split; [reflexivity|].
  assert (Hiff : Nat.eqb (length (split d)) 0 = true
                 ↔ Forall (fun c => isspace c = true) d).
  { rewrite <- split_nil, Nat.eqb_eq. apply length_zero_iff_nil. }
  split; [exact Hiff|].
  intros Hd. apply Hiff. eapply Forall_impl; [exact Hd|].
  by intros c [->|[->| ->]].
Qed.


(** A description of a space, a tab and a newline is empty. *)
Lemma detect_blank_description_witness :
  ∃ b : bool,
    detect blank_package = inr b
    ∧ (b = true ↔ Forall (fun c => isspace c = true) [32; 9; 10]%N)
    ∧ (Forall (fun c => c = 32%N ∨ c = 9%N ∨ c = 10%N) [32; 9; 10]%N
       → b = true).
Proof.
  apply (detect_blank_description blank_package
           (PyDict [("name", PyStr [112; 107; 103]%N);
                    ("description", PyStr [32; 9; 10]%N)])
           [32; 9; 10]%N).
  - reflexivity.
  - reflexivity.
Defined.

(** The two cases of the tests: an empty description, and a description
    with a word in it. *)
Example detect_empty_string :
  detect (PyDict [("info", PyDict [("description", PyStr [])])]) = inr true.
Proof. reflexivity. Qed.

Example detect_word :
  detect (PyDict [("info", PyDict [("description", PyStr [32; 97; 10]%N)])])
  = inr false.
Proof. reflexivity. Qed.

End EmptyDescription.

(** ** Rule selection on the command line *)

Section RuleSelection.
Import Cli.

Variable ALL_RULES : gset string.
Variable Results : Type.
Variable issues : Results -> option Z.
Variable print_scan_results : Results -> string -> list string.
Variable dumps : Results -> string.
Variable dumps_verified : list (Verified Results) -> string.
Variable report_verify_sarif :
  string -> gset string -> list (Verified Results) -> Ecosystem -> string.
Variable get_package_scanner : Ecosystem -> option (PackageScanner Results).
Variable get_project_scanner : Ecosystem -> option (ProjectScanner Results).
Variable path_exists : string -> bool.
Variable show_ecosystem : Ecosystem -> string.


Lemma _get_rule_pram_conflict (rules exclude_rules : list string)
    (trace : list Event) :
  rules ≠ [] → exclude_rules ≠ [] →
  _get_rule_pram ALL_RULES rules exclude_rules trace
  = (Exited 1, (trace ++ [conflict])%list).
Proof.
  intros Hr Hx. unfold _get_rule_pram.
  destruct rules; [done|]. destruct exclude_rules; [done|]. reflexivity.
Qed.

(** Without [--exclude-rules] the selection is the tuple given, or
    [None]; with [--exclude-rules] alone it is what is left of
    [ALL_RULES]. *)
Lemma _get_rule_pram_requested (rules : list string) (trace : list Event) :
  _get_rule_pram ALL_RULES rules [] trace
  = (Returned (match rules with [] => None | _ => Some (Requested rules) end),
     trace).
Proof. by destruct rules. Qed.

Lemma _get_rule_pram_excluded (exclude_rules : list string)
    (trace : list Event) :
  exclude_rules ≠ [] →
  _get_rule_pram ALL_RULES [] exclude_rules trace
  = (Returned (Some (Remaining (ALL_RULES ∖ list_to_set exclude_rules))),
     trace).
Proof. intros Hx. by destruct exclude_rules. Qed.

(** C6.  When [--rules] and [--exclude-rules] are both given, [_scan] and
    [_verify] print the complaint and exit with status 1, and that is all
    they do: no scanner is looked up or run. *)
Theorem conflicting_selection_rejected (target : string)
    (version : option string) (rules exclude_rules : list string)
    (output_format : option string) (exit_non_zero_on_finding : bool)
    (ecosystem : Ecosystem) :
  rules ≠ [] → exclude_rules ≠ [] →
  _scan ALL_RULES Results issues print_scan_results dumps
    get_package_scanner path_exists show_ecosystem
    target version rules exclude_rules output_format
    exit_non_zero_on_finding ecosystem []
  = (Exited 1, [conflict])
  ∧ _verify ALL_RULES Results print_scan_results dumps_verified
      report_verify_sarif get_project_scanner show_ecosystem
      target rules exclude_rules output_format exit_non_zero_on_finding
      ecosystem []
    = (Exited 1, [conflict])
  ∧ forallb (fun e => negb (is_scan_event e)) [conflict] = true.
Proof.
  intros Hr Hx. unfold _scan, _verify.
  rewrite (_get_rule_pram_conflict _ _ _ Hr Hx). by repeat split.
Qed.

End RuleSelection.

Section RuleSelectionExamples.
Import Cli.


(** One rule asked for and another one excluded. *)
Lemma conflicting_selection_rejected_witness :
  _scan two_rules unit (fun _ => Some 0%Z) (fun _ _ => []) (fun _ => "{}")
    (fun _ => Some quiet_package_scanner) (fun _ => false) (fun _ => "pypi")
    "requests" None ["typosquatting"] ["shady-links"] None false PYPI []
  = (Exited 1, [conflict])
  ∧ _verify two_rules unit (fun _ _ => []) (fun _ => "[]")
      (fun _ _ _ _ => "{}") (fun _ => Some quiet_project_scanner)
      (fun _ => "pypi")
      "requests" ["typosquatting"] ["shady-links"] None false PYPI []
    = (Exited 1, [conflict])
  ∧ forallb (fun e => negb (is_scan_event e)) [conflict] = true.
Proof.
  apply (conflicting_selection_rejected two_rules unit (fun _ => Some 0%Z)
           (fun _ _ => []) (fun _ => "{}") (fun _ => "[]")
           (fun _ _ _ _ => "{}") (fun _ => Some quiet_package_scanner)
           (fun _ => Some quiet_project_scanner) (fun _ => false)
           (fun _ => "pypi")
           "requests" None ["typosquatting"] ["shady-links"] None false PYPI).
  - discriminate.
  - discriminate.
Defined.

(** With [--rules] alone the scanner is looked up and run. *)
Example scan_with_rules_only :
  _scan two_rules unit (fun _ => Some 0%Z) (fun _ _ => []) (fun _ => "{}")
    (fun _ => Some quiet_package_scanner) (fun _ => false) (fun _ => "pypi")
    "requests" None ["typosquatting"] [] None false PYPI []
  = (Returned tt,
     [GotScanner PYPI false;
      ScannedRemote "requests" None (Some (Requested ["typosquatting"]))]).
Proof. reflexivity. Qed.

End RuleSelectionExamples.

(** ** The sourcecode dispatch *)

Section DictFold.
Import Analyzer.

Context {V : Type}.
Variable g : string -> gmap string V.

#[local] Abbreviation merged := (Analyzer.merged g).


Lemma dict_or_lookup (a b : gmap string V) (l : string) :
  dict_or a b !! l = match b !! l with Some v => Some v | None => a !! l end.
Proof.
  unfold dict_or. rewrite lookup_union.
  by destruct (b !! l), (a !! l).
Qed.

Lemma merged_untouched (results : gmap string V) (rules : list string)
    (l : string) :
  (∀ r, r ∈ rules → g r !! l = None) →
  merged results rules !! l = results !! l.
Proof.
  revert results. induction rules as [|x rules IH]; intros results H; [done|].
  change (merged results (x :: rules))
    with (merged (dict_or results (g x)) rules).
  rewrite IH by (intros r Hr; apply H; by right).
  rewrite dict_or_lookup, H; [done|by left].
Qed.

Lemma merged_keeps_keys (results : gmap string V) (rules : list string)
    (l : string) :
  is_Some (results !! l) → is_Some (merged results rules !! l).
Proof.
  revert results. induction rules as [|x rules IH]; intros results H; [done|].
  change (merged results (x :: rules))
    with (merged (dict_or results (g x)) rules).
  apply IH. rewrite dict_or_lookup.
  by destruct (g x !! l).
Qed.

Lemma merged_own (results : gmap string V) (rules : list string)
    (l : string) :
  (∀ r, r ∈ rules → r ≠ l → g r !! l = None) →
  l ∈ rules →
  merged results rules !! l = dict_or results (g l) !! l.
Proof.
  revert results. induction rules as [|x rules IH]; intros results H Hin.
  - destruct (not_elem_of_nil _ Hin).
  - change (merged results (x :: rules))
    with (merged (dict_or results (g x)) rules).
    assert (Hrest : ∀ r, r ∈ rules → r ≠ l → g r !! l = None)
      by (intros r Hr; apply H; by right).
    destruct (decide (l ∈ rules)) as [Hl|Hl].
    + rewrite IH by done. rewrite !dict_or_lookup.
      destruct (g l !! l) eqn:Hg; [done|].
      destruct (decide (x = l)) as [->|Hne]; [by rewrite Hg|].
      rewrite H; [done|by left|done].
    + apply elem_of_cons in Hin as [->|Hin]; [|done].
      apply merged_untouched. intros r Hr. apply Hrest; [done|].
      by intros ->.
Qed.

End DictFold.

Section SourcecodeDispatch.
Import Analyzer.

Variable sourcecode_path : string.
Variable sourcecode_ruleset : list string.
Variable path_join : string -> string -> string.
Variable abspath : string -> string.
Variable relpath : string -> string -> string.
Variable invoke_semgrep :
  string -> list string -> list string -> Exn + list Finding.

#[local] Abbreviation location := (location_of abspath relpath).
#[local] Abbreviation format := (_format_semgrep_response abspath relpath).
#[local] Abbreviation rule_file :=
  (Analyzer.rule_file sourcecode_path path_join).
#[local] Abbreviation located := (Analyzer.located abspath relpath).
#[local] Abbreviation found := (Analyzer.found abspath relpath).
#[local] Abbreviation invocations :=
  (Analyzer.invocations sourcecode_path path_join).
#[local] Abbreviation analyze :=
  (analyze_sourcecode sourcecode_path sourcecode_ruleset path_join
     abspath relpath invoke_semgrep).

(** The entry of a label after the loop of [_format_semgrep_response]
    holds the findings of that label, in order. *)
Lemma record_findings_lookup (rule : option string)
    (targetpath : option Target)
    (response : list Finding) (results : gmap string (gmap string string))
    (l : string) :
  foldl (record_finding abspath relpath rule targetpath) results response !! l
  = match filter (fun f => label_of rule f = l) response with
    | [] => results !! l
    | mine => Some (located targetpath (default ∅ (results !! l)) mine)
    end.
Proof.
  revert results. induction response as [|f response IH]; intros results.
  - done.
  - cbn [foldl]. rewrite IH. unfold record_finding.
    destruct (decide (label_of rule f = l)) as [Hl|Hl].
    + rewrite filter_cons_True by done. rewrite Hl.
      assert (Hnew :
        (match results !! l with
         | Some locations =>
             <[l := <[location targetpath f := lines f]> locations]> results
         | None => <[l := {[location targetpath f := lines f]}]> results
         end) !! l
        = Some (<[location targetpath f := lines f]>
                  (default ∅ (results !! l)))).
      { destruct (results !! l); by rewrite lookup_insert_eq. }
      rewrite Hnew. cbn [default Analyzer.located foldl].
      by destruct (filter _ response).
    + rewrite filter_cons_False by done.
      assert (Hold :
        (match results !! label_of rule f with
         | Some locations =>
             <[label_of rule f :=
                 <[location targetpath f := lines f]> locations]> results
         | None =>
             <[label_of rule f :=
                 {[location targetpath f := lines f]}]> results
         end) !! l = results !! l).
      { destruct (results !! label_of rule f); by rewrite lookup_insert_ne. }
      by rewrite Hold.
Qed.

Lemma format_lookup (rule : option string) (targetpath : option Target)
    (response : list Finding) (l : string) :
  format response rule targetpath !! l
  = found targetpath (filter (fun f => label_of rule f = l) response).
Proof.
  unfold _format_semgrep_response. rewrite record_findings_lookup.
  rewrite lookup_empty. unfold Analyzer.found. cbn [default].
  by destruct (filter _ response).
Qed.

Lemma located_same (targetpath : option Target)
    (locations : gmap string string) (a b : list Finding) :
  Forall2 same_match a b →
  located targetpath locations a = located targetpath locations b.
Proof.
  intros H. revert locations.
  induction H as [|x y a b (Hp & Hs & Hl) _ IH]; intros locations; [done|].
  unfold Analyzer.located in *. cbn [foldl]. rewrite <- IH.
  unfold location_of. by rewrite Hp, Hs, Hl.
Qed.

Lemma found_same (targetpath : option Target) (a b : list Finding) :
  Forall2 same_match a b → found targetpath a = found targetpath b.
Proof.
  intros H. unfold Analyzer.found. rewrite (located_same _ _ _ _ H).
  by destruct H.
Qed.

Lemma empty_results_lookup (all_rules : list string) (l : string) :
  empty_results all_rules !! l
  = if decide (l ∈ all_rules) then Some ∅ else None.
Proof.
  unfold empty_results.
  assert (H : ∀ results : gmap string (gmap string string),
    foldl (fun results rule => <[rule := ∅]> results) results all_rules !! l
    = if decide (l ∈ all_rules) then Some ∅ else results !! l).
  { induction all_rules as [|x rules IH]; intros results.
    - cbn [foldl]. by rewrite decide_False by apply not_elem_of_nil.
    - cbn [foldl]. rewrite IH.
      destruct (decide (l ∈ rules)) as [Hl|Hl].
      + rewrite decide_True; [done|by right].
      + destruct (decide (x = l)) as [->|Hne].
        * rewrite decide_True by left. apply lookup_insert_eq.
        * rewrite lookup_insert_ne by done. rewrite decide_False; [done|].
          intros [?|?]%elem_of_cons; congruence || done. }
  rewrite H. by rewrite lookup_empty.
Qed.

(** When the engine answers for every rule walked, the loop of
    [analyze_sourcecode] returns the initial dictionary with the formatted
    answers laid over it, one after the other. *)
Lemma analyze_each_merged (targetpath : string)
    (answer : string -> list Finding) (rules : list string)
    (results : gmap string (gmap string string)) :
  (∀ r, r ∈ rules →
     invoke_semgrep (rule_file r) [targetpath] exclude = inr (answer r)) →
  analyze_each sourcecode_path path_join abspath relpath invoke_semgrep
    targetpath rules results
  = inr (merged (fun r => format (answer r) (Some r) (Some (PathOf targetpath)))
           results rules).
Proof.
  revert results. induction rules as [|x rules IH]; intros results H; [done|].
  cbn [analyze_each]. fold (rule_file x).
  rewrite (H x) by left. rewrite IH by (intros r Hr; apply H; by right).
  done.
Qed.

(** The loop stops at the first rule the engine fails on. *)
Lemma analyze_each_fails (targetpath : string) (rules : list string)
    (results : gmap string (gmap string string)) (r : string) (e : Exn) :
  r ∈ rules →
  invoke_semgrep (rule_file r) [targetpath] exclude = inl e →
  ∃ r', r' ∈ rules
    ∧ analyze_each sourcecode_path path_join abspath relpath invoke_semgrep
        targetpath rules results
      = inl (r' +:+ " is not an existing rule.").
Proof.
  revert results. induction rules as [|x rules IH]; intros results Hin He.
  - destruct (not_elem_of_nil _ Hin).
  - cbn [analyze_each]. fold (rule_file x).
    destruct (invoke_semgrep (rule_file x) [targetpath] exclude)
      as [e'|response] eqn:Hx.
    + exists x. split; [left|done].
    + apply elem_of_cons in Hin as [->|Hin]; [congruence|].
      destruct (IH (dict_or results
                      (format response (Some x) (Some (PathOf targetpath)))) Hin He)
        as (r' & Hr' & ->).
      exists r'. split; [by right|done].
Qed.

(** A rule with a name labels all its findings itself. *)
Lemma label_of_named (r : string) (f : Finding) :
  r ≠ "" → label_of (Some r) f = r.
Proof.
  intros Hr. unfold label_of.
  destruct (String.eqb r "") eqn:E; [|done].
  by apply String.eqb_eq in E.
Qed.

Lemma filter_own_label (r : string) (response : list Finding) :
  r ≠ "" → filter (fun f => label_of (Some r) f = r) response = response.
Proof.
  intros Hr. induction response as [|f response IH]; [done|].
  rewrite filter_cons_True by by apply label_of_named.
  by rewrite IH.
Qed.

Lemma filter_other_label (r l : string) (response : list Finding) :
  r ≠ "" → r ≠ l → filter (fun f => label_of (Some r) f = l) response = [].
Proof.
  intros Hr Hl. induction response as [|f response IH]; [done|].
  rewrite filter_cons_False; [done|]. by rewrite label_of_named.
Qed.

Lemma filter_no_label (rule : option string) (l : string)
    (response : list Finding) :
  (∀ f, f ∈ response → label_of rule f ≠ l) →
  filter (fun f => label_of rule f = l) response = [].
Proof.
  induction response as [|f response IH]; intros H; [done|].
  rewrite filter_cons_False by (apply H; left).
  apply IH. intros f' Hf'. apply H. by right.
Qed.

(** C5.  Let the engine, run on the whole ruleset directory, return for
    each rule of the catalog the matches it returns when run on that rule's
    file, in the same order and under an identifier that ends in the rule's
    name, and nothing else.  Then for every source tree the analysis with
    the full catalog (one run of the engine) and the analysis rule by rule
    return the same dictionary, and the analysis of one rule alone gives
    that rule the same locations. *)
Theorem batched_equals_per_rule (path : string) (batch : list Finding)
    (answer : string -> list Finding) :
  "" ∉ sourcecode_ruleset →
  invoke_semgrep sourcecode_path [path] exclude = inr batch →
  (∀ r, r ∈ sourcecode_ruleset →
     invoke_semgrep (rule_file r) [path] exclude = inr (answer r)) →
  (∀ f, f ∈ batch → check_label f ∈ sourcecode_ruleset) →
  (∀ r, r ∈ sourcecode_ruleset →
     Forall2 same_match
       (filter (fun f => check_label f = r) batch) (answer r)) →
  ∃ m : gmap string (gmap string string),
    analyze path None = inr m
    ∧ analyze path (Some sourcecode_ruleset) = inr m
    ∧ ∀ r, r ∈ sourcecode_ruleset →
        ∃ m_r, analyze path (Some [r]) = inr m_r ∧ m_r !! r = m !! r.
Proof.
  intros Hnamed Hbatch Hrule Hknown Hsame.
  set (g := fun r => format (answer r) (Some r) (Some (PathOf path))).
  assert (Hne : ∀ r, r ∈ sourcecode_ruleset → r ≠ "")
    by (intros r Hr ->; by apply Hnamed).
  (* what the batched run leaves under a rule of the catalog *)
  assert (Hm : ∀ l, l ∈ sourcecode_ruleset →
    dict_or (empty_results sourcecode_ruleset)
      (format batch None (Some (PathOf path))) !! l
    = Some (default ∅ (found (Some (PathOf path)) (answer l)))).
  { intros l Hl. rewrite dict_or_lookup, format_lookup.
    change (fun f => label_of None f = l) with (fun f => check_label f = l).
    rewrite (found_same _ _ _ (Hsame l Hl)).
    destruct (found (Some (PathOf path)) (answer l)); [done|].
    rewrite empty_results_lookup. by rewrite decide_True. }
  (* what the rule's own run gives it *)
  assert (Hg : ∀ l, l ∈ sourcecode_ruleset →
    g l !! l = found (Some (PathOf path)) (answer l)).
  { intros l Hl. unfold g. rewrite format_lookup.
    by rewrite filter_own_label by by apply Hne. }
  assert (Hg' : ∀ r l, r ∈ sourcecode_ruleset → r ≠ l → g r !! l = None).
  { intros r l Hr Hrl. unfold g. rewrite format_lookup.
    by rewrite filter_other_label by (by apply Hne || done). }
  exists (dict_or (empty_results sourcecode_ruleset)
            (format batch None (Some (PathOf path)))).
  split; [|split].
  - unfold analyze_sourcecode. by rewrite Hbatch.
  - unfold analyze_sourcecode.
    rewrite (analyze_each_merged path answer) by done.
    f_equal. apply map_eq. intros l. fold g.
    destruct (decide (l ∈ sourcecode_ruleset)) as [Hl|Hl].
    + rewrite merged_own by (by auto || done).
      rewrite Hm by done. rewrite dict_or_lookup, Hg by done.
      destruct (found (Some (PathOf path)) (answer l)); [done|].
      rewrite empty_results_lookup. by rewrite decide_True.
    + rewrite merged_untouched.
      2:{ intros r Hr. apply Hg'; [done|]. by intros ->. }
      rewrite dict_or_lookup, format_lookup, empty_results_lookup.
      rewrite decide_False by done.
      rewrite filter_no_label; [done|].
      intros f Hf Hlabel. apply Hl. rewrite <- Hlabel. by apply Hknown.
  - intros r Hr. eexists. split.
    + unfold analyze_sourcecode.
      apply (analyze_each_merged path answer).
      intros r' ->%list_elem_of_singleton. by apply Hrule.
    + fold g. rewrite Hm by done.
      rewrite merged_own; [|intros r' ->%list_elem_of_singleton; done|left].
      rewrite dict_or_lookup, Hg by done.
      destruct (found (Some (PathOf path)) (answer r)); [done|].
      rewrite empty_results_lookup. rewrite decide_True; [done|left].
Qed.


(** C10.  For every selection, when the engine answers each run the
    analysis makes, the analysis returns a dictionary in which every
    selected rule is a key; a selected rule under which no finding of any
    run is filed is bound to the empty dictionary. *)
Theorem selected_rules_are_keys (path : string)
    (rules : option (list string)) :
  (∀ rule config, (rule, config) ∈ invocations rules →
     ∃ response, invoke_semgrep config [path] exclude = inr response) →
  ∃ m : gmap string (gmap string string),
    analyze path rules = inr m
    ∧ ∀ r, r ∈ default sourcecode_ruleset rules →
        is_Some (m !! r)
        ∧ ((∀ rule config response f,
              (rule, config) ∈ invocations rules →
              invoke_semgrep config [path] exclude = inr response →
              f ∈ response → label_of rule f ≠ r) →
           m !! r = Some ∅).
Proof.
  intros Hanswers. destruct rules as [rules|]; cbn [default].
  - set (answer := fun r =>
           match invoke_semgrep (rule_file r) [path] exclude with
           | inr response => response
           | inl _ => []
           end).
    assert (Hrun : ∀ r, r ∈ rules →
              invoke_semgrep (rule_file r) [path] exclude = inr (answer r)).
    { intros r Hr. destruct (Hanswers (Some r) (rule_file r)) as [x Hx].
      - apply list_elem_of_fmap. by exists r.
      - unfold answer. by rewrite Hx. }
    eexists. split.
    + unfold analyze_sourcecode. by apply (analyze_each_merged path answer).
    + intros r Hr. split.
      * apply merged_keeps_keys. rewrite empty_results_lookup.
        by rewrite decide_True.
      * intros Hnone. rewrite merged_untouched.
        { rewrite empty_results_lookup. by rewrite decide_True. }
        intros r' Hr'. rewrite format_lookup.
        rewrite filter_no_label; [done|].
        intros f Hf. apply (Hnone (Some r') (rule_file r') (answer r')).
        -- apply list_elem_of_fmap. by exists r'.
        -- by apply Hrun.
        -- done.
  - destruct (Hanswers None sourcecode_path) as [batch Hbatch]; [left|].
    eexists. split.
    + unfold analyze_sourcecode. by rewrite Hbatch.
    + intros r Hr. split.
      * rewrite dict_or_lookup.
        destruct (format batch None (Some (PathOf path)) !! r); [done|].
        rewrite empty_results_lookup. by rewrite decide_True.
      * intros Hnone. rewrite dict_or_lookup, format_lookup.
        rewrite filter_no_label.
        { cbn [Analyzer.found]. rewrite empty_results_lookup. by rewrite decide_True. }
        intros f Hf. by apply (Hnone None sourcecode_path batch); [left| |].
Qed.

End SourcecodeDispatch.

Section SourcecodeExamples.
Import Analyzer.


Example sample_batched_run :
  sample_analyze "/tmp/pkg" None
  = inr {[ "exec-base64" := {[ "setup.py:3" := "exec(b64decode(b))" ]};
           "shady-links" := {[ "util.py:7" := "get('http://bit.ly/x')" ]} ]}.
Proof. vm_compute. reflexivity. Qed.

(** The sample engine keeps the contract. *)
Lemma batched_equals_per_rule_witness :
  ∃ m : gmap string (gmap string string),
    sample_analyze "/tmp/pkg" None = inr m
    ∧ sample_analyze "/tmp/pkg" (Some sample_ruleset) = inr m
    ∧ ∀ r, r ∈ sample_ruleset →
        ∃ m_r, sample_analyze "/tmp/pkg" (Some [r]) = inr m_r
               ∧ m_r !! r = m !! r.
Proof.
  apply (batched_equals_per_rule "rules" sample_ruleset sample_join
           sample_abspath sample_relpath sample_engine
           "/tmp/pkg" sample_batch sample_answer).
  - intros H. repeat (apply elem_of_cons in H as [H|H]; [discriminate H|]).
    exact (not_elem_of_nil _ H).
  - reflexivity.
  - intros r H.
    repeat (apply elem_of_cons in H as [->|H]; [reflexivity|]).
    destruct (not_elem_of_nil _ H).
  - intros f H.
    repeat (apply elem_of_cons in H as [->|H];
            [vm_compute; repeat constructor|]).
    destruct (not_elem_of_nil _ H).
  - intros r H.
    repeat (apply elem_of_cons in H as [->|H];
            [vm_compute; repeat constructor|]).
    destruct (not_elem_of_nil _ H).
Defined.

(** The sample engine answers for both rules. *)
Lemma selected_rules_are_keys_witness :
  ∃ m : gmap string (gmap string string),
    sample_analyze "/tmp/pkg" (Some ["shady-links"; "exec-base64"]) = inr m
    ∧ ∀ r, r ∈ default sample_ruleset (Some ["shady-links"; "exec-base64"]) →
        is_Some (m !! r)
        ∧ ((∀ rule config response f,
              (rule, config)
                ∈ invocations "rules" sample_join
                    (Some ["shady-links"; "exec-base64"]) →
              sample_engine config ["/tmp/pkg"] exclude = inr response →
              f ∈ response →
              label_of rule f ≠ r) →
           m !! r = Some ∅).
Proof.
  apply (selected_rules_are_keys "rules" sample_ruleset sample_join
           sample_abspath sample_relpath sample_engine
           "/tmp/pkg" (Some ["shady-links"; "exec-base64"])).
  intros rule config H. cbn in H.
  repeat (apply elem_of_cons in H as [H|H];
          [injection H as -> ->; eexists; reflexivity|]).
  destruct (not_elem_of_nil _ H).
Defined.

(** A selected rule without findings is bound to the empty dictionary. *)
Example sample_rule_without_findings :
  analyze_sourcecode "rules" ["quiet"; "shady-links"] sample_join
    sample_abspath sample_relpath
    (fun config _ _ =>
       if String.eqb config "rules/quiet.yml" then inr []
       else sample_engine config [] [])
    "/tmp/pkg" (Some ["quiet"; "shady-links"])
  = inr {[ "quiet" := ∅;
           "shady-links" := {[ "util.py:7" := "get('http://bit.ly/x')" ]} ]}.
Proof. vm_compute. reflexivity. Qed.

(** A rule without a file ends the analysis. *)
Example sample_missing_rule :
  sample_analyze "/tmp/pkg" (Some ["shady-links"; "ghost"])
  = inl "ghost is not an existing rule.".
Proof. reflexivity. Qed.

End SourcecodeExamples.

(** ** More on the resolver of [pysecurity] *)

Section ResolverWalk.
Import PyStr ProjectScanner ProjectScan.

Variable releases : string -> Exn + list string.
Variable re_search : string -> string -> Exn + bool.

#[local] Abbreviation resolve := (resolve_all releases re_search).
#[local] Abbreviation specs_of := (resolve_specs releases re_search).

(** Items that stop the walk wherever they are met hide what follows
    them. *)
Lemma resolve_all_stopped (before rest : list (Exn + Requirement))
    (dependencies : gmap string (option (gset string)))
    (err : list string) :
  (∀ dependencies err, fst (resolve rest dependencies err) = dependencies) →
  fst (resolve (before ++ rest) dependencies err)
  = fst (resolve before dependencies err).
Proof.
  intros Hstop. revert dependencies err.
  induction before as [|[e|r] before IH]; intros dependencies err.
  - apply Hstop.
  - done.
  - cbn [app resolve_all].
    destruct (specs_of (project_name r) (specs r) None err) as [[e|v] err'].
    + done.
    + apply IH.
Qed.

(** The walk binds no name but those of its requirements. *)
Lemma resolve_all_other (name : string) (rest : list (Exn + Requirement))
    (dependencies : gmap string (option (gset string)))
    (err : list string) :
  Forall (fun item => match item with
                      | inr r => project_name r ≠ name
                      | inl _ => True
                      end) rest →
  fst (resolve rest dependencies err) !! name = dependencies !! name.
Proof.
  intros H. revert dependencies err.
  induction H as [|[e|r] rest Hr _ IH]; intros dependencies err.
  - done.
  - done.
  - cbn [resolve_all].
    destruct (specs_of (project_name r) (specs r) None err) as [[e|v] err'].
    + done.
    + rewrite IH. by apply lookup_insert_ne.
Qed.

(** With an unreachable registry every constraint writes its own line. *)
Lemma resolve_specs_unfetched_lines (name : string) (e : Exn)
    (l : list (string * string)) (valid : option (gset string))
    (err : list string) :
  releases name = inl e →
  specs_of name l valid err
  = (inr valid,
     (err ++ replicate (length l)
               ("Package " +:+ name +:+ " not on PyPI"))%list).
Proof.
  intros He. revert err.
  induction l as [|[q v] l IH]; intros err.
  - cbn [resolve_specs length replicate]. by rewrite app_nil_r.
  - cbn [resolve_specs]. unfold versions. rewrite He, IH.
    unfold emit. cbn [length replicate]. by rewrite <- app_assoc.
Qed.

Lemma sorted_reverse_elem (x : string) (l : list string) :
  x ∈ sorted_reverse l ↔ x ∈ l.
Proof.
  assert (Hins : ∀ y l, x ∈ insert_desc y l ↔ x = y ∨ x ∈ l).
  { intros y l'. induction l' as [|z l' IH]; simpl.
    - rewrite elem_of_cons. split; [tauto|].
      intros [H|H]; [by left|]. destruct (not_elem_of_nil _ H).
    - destruct (str_le z y).
      + rewrite elem_of_cons. tauto.
      + rewrite !elem_of_cons, IH. tauto. }
  unfold sorted_reverse. induction l as [|y l IH]; simpl; [done|].
  rewrite Hins, IH, elem_of_cons. tauto.
Qed.

Lemma matching_versions_elem (version : string) (available ms : list string)
    (x : string) :
  matching_versions re_search version available = inr ms →
  x ∈ ms → x ∈ available.
Proof.
  revert ms. induction available as [|c available IH]; intros ms.
  - cbn [matching_versions]. intros [= <-] H.
    destruct (not_elem_of_nil _ H).
  - cbn [matching_versions].
    destruct (re_search version c) as [e|found]; [done|].
    destruct (matching_versions re_search version available) as [e|ms'];
      [done|].
    intros [= <-] H. destruct found.
    + apply elem_of_cons in H as [->|H]; [left|right; by eapply IH].
    + right. by eapply IH.
Qed.

Lemma selecting_branch (qualifier version : string)
    (available : list string) :
  qualifier ∈ selecting →
  (∃ e, used_versions_of re_search qualifier version available = inl e)
  ∨ ∃ u, used_versions_of re_search qualifier version available
         = inr (Used (Some u))
         ∧ ∀ x, x ∈ u → x ∈ available.
Proof.
  intros Hq. unfold selecting in Hq.
  repeat (apply elem_of_cons in Hq as [->|Hq];
          [right; eexists; split; [reflexivity|];
           intros y Hy; apply elem_of_list_to_set in Hy;
           apply list_elem_of_In, filter_In in Hy as [Hy _];
           by apply list_elem_of_In|]).
  apply elem_of_cons in Hq as [->|Hq]; [|destruct (not_elem_of_nil _ Hq)].
  cbn. destruct (matching_versions re_search version available) as [e|ms]
    eqn:Hms; [left; by eexists|].
  right. eexists. split; [done|].
  intros y Hy. apply elem_of_list_to_set in Hy.
  by eapply matching_versions_elem.
Qed.

(** X1.  An item the parser raises on ends the resolution: the dictionary
    returned is the one of the items before it, whatever follows. *)
Theorem parse_error_ends_resolution (before after : list (Exn + Requirement))
    (e : Exn) :
  fst (parse_requirements releases re_search (before ++ inl e :: after))
  = fst (parse_requirements releases re_search before).
Proof.
  unfold parse_requirements. by apply resolve_all_stopped.
Qed.

(** X2.  A compatible-release constraint without a candidate, coming after
    a constraint that selected a set, raises in the intersection: the
    dictionary stays as it was, the requirements after it are not looked
    at, and the error is written to [sys.stderr]. *)
Theorem compatible_without_candidate_raises (name q1 v1 v2 : string)
    (available : list string) (u1 : gset string)
    (rest : list (string * string)) (after : list (Exn + Requirement))
    (dependencies : gmap string (option (gset string)))
    (err : list string) :
  versions releases name = inr available →
  used_versions_of re_search q1 v1 available = inr (Used (Some u1)) →
  compatible_pick v2 available = None →
  resolve (inr (mkRequirement name ((q1, v1) :: ("~=", v2) :: rest)) :: after)
    dependencies err
  = (dependencies,
     emit err ("Received error "
               +:+ "unsupported operand type(s) for &: 'set' and 'NoneType'")).
Proof.
  intros Hv H1 Hpick. cbn [resolve_all project_name specs resolve_specs].
  rewrite Hv, H1. cbn [combine].
  replace (used_versions_of re_search "~=" v2 available)
    with (inr (B := Branch) (A := Exn) (Used None)); [done|].
  cbn. by rewrite Hpick.
Qed.

(** X3.  A requirement replaces what an earlier line bound to the same
    package (the two are not intersected), and its binding stays when no
    later requirement names the package. *)
Theorem later_requirement_replaces (name : string)
    (constraints : list (string * string)) (valid : option (gset string))
    (rest : list (Exn + Requirement))
    (dependencies : gmap string (option (gset string)))
    (err err' : list string) :
  specs_of name constraints None err = (inr valid, err') →
  Forall (fun item => match item with
                      | inr r => project_name r ≠ name
                      | inl _ => True
                      end) rest →
  fst (resolve (inr (mkRequirement name constraints) :: rest)
         dependencies err) !! name
  = Some valid.
Proof.
  intros Hspecs Hrest. cbn [resolve_all project_name specs].
  rewrite Hspecs, resolve_all_other by done. apply lookup_insert_eq.
Qed.

(** X4.  When the version list of a package cannot be fetched, resolving
    its requirement binds the package to [None] and writes one line per
    constraint, the fetch being tried again for each. *)
Theorem unfetched_requirement (name : string) (e : Exn)
    (constraints : list (string * string)) :
  releases name = inl e →
  parse_requirements releases re_search
    [inr (mkRequirement name constraints)]
  = ({[name := None]},
     replicate (length constraints) ("Package " +:+ name +:+ " not on PyPI")).
Proof.
  intros He. unfold parse_requirements.
  cbn [resolve_all project_name specs].
  rewrite (resolve_specs_unfetched_lines _ _ _ _ _ He).
  by rewrite insert_empty.
Qed.

(** What the constraints walked so far leave in [valid_versions] when
    they all select among the published versions. *)
Lemma resolve_specs_published (name : string) (keys : list string)
    (l : list (string * string)) (valid result : option (gset string))
    (err err' : list string) :
  releases name = inr keys →
  Forall (fun c => c.1 ∈ selecting) l →
  (∀ s x, valid = Some s → x ∈ s → x ∈ keys) →
  specs_of name l valid err = (inr result, err') →
  ∀ s x, result = Some s → x ∈ s → x ∈ keys.
Proof.
  intros Hk Hl. revert valid err.
  induction Hl as [|[q v] l Hq _ IH]; intros valid err Hvalid.
  - cbn [resolve_specs]. by intros [= <- _].
  - cbn [resolve_specs]. unfold versions. rewrite Hk.
    destruct (selecting_branch q v (sorted_reverse keys) Hq)
      as [[e ->]|(u & -> & Hsub)]; [done|].
    destruct valid as [s0|]; cbn [combine].
    + apply IH. intros s x [= <-] Hx.
      apply elem_of_intersection in Hx as [Hx _]. by eapply Hvalid.
    + apply IH. intros s x [= <-] Hx.
      apply sorted_reverse_elem. by apply Hsub.
Qed.

(** X5.  A requirement whose constraints are comparisons or equalities is
    resolved to published versions only: every member of the set bound to
    the package is one of the releases the registry lists. *)
Theorem resolved_versions_are_published (name : string)
    (keys : list string) (constraints : list (string * string))
    (rest : list (Exn + Requirement)) (s : gset string) (x : string) :
  releases name = inr keys →
  Forall (fun c => c.1 ∈ selecting) constraints →
  Forall (fun item => match item with
                      | inr r => project_name r ≠ name
                      | inl _ => True
                      end) rest →
  fst (parse_requirements releases re_search
         (inr (mkRequirement name constraints) :: rest)) !! name
  = Some (Some s) →
  x ∈ s → x ∈ keys.
Proof.
  intros Hk Hsel Hrest. unfold parse_requirements.
  cbn [resolve_all project_name specs].
  destruct (specs_of name constraints None []) as [[e|result] err'] eqn:Hs.
  - cbn [fst]. by rewrite lookup_empty.
  - rewrite resolve_all_other by done. rewrite lookup_insert_eq.
    intros [= ->] Hx.
    by eapply (resolve_specs_published _ _ _ None _ _ _ Hk Hsel).
Qed.

(** X6.  A compatible-release constraint alone binds the package to the
    characters of the one candidate picked: every member of the set is a
    string of length one. *)
Theorem compatible_release_keeps_characters (name version : string)
    (keys : list string) (s : gset string) (x : string) :
  releases name = inr keys →
  fst (parse_requirements releases re_search
         [inr (mkRequirement name [("~=", version)])]) !! name
  = Some (Some s) →
  x ∈ s → String.length x = 1.
Proof.
  intros Hk. unfold parse_requirements.
  cbn [resolve_all project_name specs resolve_specs].
  unfold versions. rewrite Hk.
  replace (used_versions_of re_search "~=" version (sorted_reverse keys))
    with (inr (A := Exn)
            (Used (option_map (fun v => list_to_set (chars v))
                     (compatible_pick version (sorted_reverse keys)))))
    by reflexivity.
  cbn [combine resolve_specs fst]. rewrite lookup_insert_eq.
  destruct (compatible_pick version (sorted_reverse keys)) as [c|];
    [|done].
  cbn [option_map]. intros [= <-] Hx. apply elem_of_list_to_set in Hx.
  clear -Hx. induction c as [|a c IH]; cbn [chars] in Hx.
  - destruct (not_elem_of_nil _ Hx).
  - apply elem_of_cons in Hx as [->|Hx]; [done|by apply IH].
Qed.

End ResolverWalk.

Section ResolverWalkExamples.
Import PyStr ProjectScanner ProjectScan.

(** A compatible-release bound above every release, after a comparison. *)
Lemma compatible_without_candidate_raises_witness :
  resolve_all (registry_of ["1.0"; "2.0"]) search_exact
    [inr (mkRequirement "pkg" [(">=", "1.0"); ("~=", "9.9")]);
     inr (mkRequirement "other" [("<", "2.0")])] ∅ []
  = (∅, ["Received error "
         +:+ "unsupported operand type(s) for &: 'set' and 'NoneType'"]).
Proof.
  apply (compatible_without_candidate_raises (registry_of ["1.0"; "2.0"])
           search_exact "pkg" ">=" "1.0" "9.9" ["2.0"; "1.0"]
           {["2.0"; "1.0"]} []
           [inr (mkRequirement "other" [("<", "2.0")])] ∅ []).
  - reflexivity.
  - vm_compute. reflexivity.
  - reflexivity.
Defined.

(** A second line for a package an earlier line bound to {2.0}. *)
Lemma later_requirement_replaces_witness :
  fst (resolve_all (registry_of ["0.9"; "1.0"; "2.0"]) search_exact
         [inr (mkRequirement "pkg" [("<", "2.0")])]
         {["pkg" := Some {["2.0"]}]} []) !! "pkg"
  = Some (Some {["1.0"; "0.9"]}).
Proof.
  apply (later_requirement_replaces (registry_of ["0.9"; "1.0"; "2.0"])
           search_exact "pkg" [("<", "2.0")] (Some {["1.0"; "0.9"]}) []
           {["pkg" := Some {["2.0"]}]} [] []).
  - vm_compute. reflexivity.
  - constructor.
Defined.

(** Two constraints on a package the registry does not know. *)
Lemma unfetched_requirement_witness :
  parse_requirements (registry_with "pkg" ["1.0"]) search_exact
    [inr (mkRequirement "ghost" [(">=", "1.0"); ("<", "2.0")])]
  = ({["ghost" := None]},
     ["Package ghost not on PyPI"; "Package ghost not on PyPI"]).
Proof.
  apply (unfetched_requirement (registry_with "pkg" ["1.0"]) search_exact
           "ghost" "'releases'" [(">=", "1.0"); ("<", "2.0")]).
  reflexivity.
Defined.

(** A comparison and an equality. *)
Lemma resolved_versions_are_published_witness :
  "1.5" ∈ ["0.9"; "1.0"; "1.5"; "2.0"].
Proof.
  apply (resolved_versions_are_published
           (registry_of ["0.9"; "1.0"; "1.5"; "2.0"]) search_exact
           "pkg" ["0.9"; "1.0"; "1.5"; "2.0"]
           [(">=", "1.0"); ("==", "1.5")] [] {["1.5"]} "1.5").
  - reflexivity.
  - repeat constructor.
  - constructor.
  - vm_compute. reflexivity.
  - vm_compute. reflexivity.
Defined.

(** The constraint ("~=", "1.4") on the releases 1.3 to 2.0. *)
Lemma compatible_release_keeps_characters_witness :
  String.length "5" = 1.
Proof.
  apply (compatible_release_keeps_characters
           (registry_of ["1.3"; "1.4"; "1.4.2"; "1.5"; "2.0"]) search_exact
           "pkg" "1.4" ["1.3"; "1.4"; "1.4.2"; "1.5"; "2.0"]
           (list_to_set (chars "1.5")) "5").
  - reflexivity.
  - vm_compute. reflexivity.
  - vm_compute. reflexivity.
Defined.

End ResolverWalkExamples.

(** ** Stripping and replacing *)

Section Stripping.
Import PyText.

Lemma lstrip_head (s : string) (c : ascii) (r : string) :
  lstrip s = String c r → isspace c = false.
Proof.
  induction s as [|d s IH]; cbn [lstrip]; [done|].
  destruct (isspace d) eqn:Hd; [done|]. by intros [= <- _].
Qed.

Lemma rstrip_head (c : ascii) (s : string) :
  isspace c = false → ∃ r, rstrip (String c s) = String c r.
Proof.
  intros Hc. cbn [rstrip]. rewrite Hc. destruct (rstrip s); by eexists.
Qed.

Lemma rstrip_rstrip (s : string) : rstrip (rstrip s) = rstrip s.
Proof.
  induction s as [|c s IH]; [done|]. cbn [rstrip].
  destruct (rstrip s) as [|d r] eqn:Hr.
  - destruct (isspace c) eqn:Hc; [done|]. cbn [rstrip]. by rewrite Hc.
  - cbn [rstrip]. cbn [rstrip] in IH. by rewrite IH.
Qed.

Lemma strip_strip (s : string) : strip (strip s) = strip s.
Proof.
  unfold strip. destruct (lstrip s) as [|c r] eqn:Hl; [done|].
  destruct (rstrip_head c r (lstrip_head _ _ _ Hl)) as [r' Hr].
  rewrite Hr. cbn [lstrip]. rewrite (lstrip_head _ _ _ Hl).
  rewrite <- Hr. apply rstrip_rstrip.
Qed.

(** No character comes out of [strip] that did not go in. *)
Lemma contains_char_lstrip (c : ascii) (s : string) :
  contains_char c (lstrip s) = true → contains_char c s = true.
Proof.
  induction s as [|d s IH]; cbn [lstrip contains_char]; [done|].
  destruct (isspace d); [|done].
  intros H. rewrite (IH H). apply orb_true_r.
Qed.

Lemma contains_char_rstrip (c : ascii) (s : string) :
  contains_char c (rstrip s) = true → contains_char c s = true.
Proof.
  induction s as [|d s IH]; cbn [rstrip contains_char]; [done|].
  destruct (rstrip s) as [|e r].
  - destruct (isspace d); [done|]. cbn [contains_char].
    rewrite orb_false_r. intros ->. done.
  - cbn [contains_char]. cbn [contains_char] in IH.
    intros [->|H]%orb_true_iff; [done|].
    rewrite (IH H). apply orb_true_r.
Qed.

Lemma contains_char_strip (c : ascii) (s : string) :
  contains_char c (strip s) = true → contains_char c s = true.
Proof.
  unfold strip. intros H.
  by apply contains_char_lstrip, contains_char_rstrip.
Qed.

(** Replacing a character by nothing leaves none of it. *)
Lemma replace_char_gone (c : ascii) (s : string) :
  contains_char c (replace (String c EmptyString) "" s) = false.
Proof.
  unfold replace. induction s as [|d s IH]; [done|].
  cbn [replace_from String.prefix String.length Nat.sub].
  destruct (ascii_dec c d) as [->|Hne].
  - destruct s; exact IH.
  - cbn [contains_char]. rewrite IH, orb_false_r.
    by apply Ascii.eqb_neq.
Qed.

End Stripping.

(** ** The sanitizers *)

Section Sanitizers.
Import PyText ProjectScan PypiSanitize.

Variable word : ascii -> bool.

#[local] Abbreviation matches := (re_match_word word).

Lemma re_match_word_length (s : string) :
  matches s = true → (0 <? String.length s)%nat = true.
Proof. by destruct s. Qed.

(** The loop of [sanitize_requirements] keeps the stripped lines that
    begin with a word character, in order; the test on the length never
    decides. *)
Lemma sanitize_requirements_filter (requirements : list string) :
  sanitize_requirements word requirements
  = List.filter matches (strip <$> requirements).
Proof.
  unfold sanitize_requirements.
  assert (H : ∀ acc,
    foldl (fun sanitized_lines line =>
             if matches (strip line)
                && (0 <? String.length (strip line))%nat
             then (sanitized_lines ++ [strip line])%list
             else sanitized_lines) acc requirements
    = (acc ++ List.filter matches (strip <$> requirements))%list).
  { induction requirements as [|line l IH]; intros acc.
    - cbn. by rewrite app_nil_r.
    - cbn [foldl fmap list_fmap List.filter]. rewrite IH.
      destruct (matches (strip line)) eqn:Hm.
      + rewrite (re_match_word_length _ Hm). cbn [andb].
        by rewrite <- app_assoc.
      + done. }
  apply (H []).
Qed.

(** X7.  Every line [sanitize_requirements] keeps is the stripped form of
    a line given, is not empty, begins with a word character and has no
    white space at either end. *)
Theorem sanitized_line (requirements : list string) (s : string) :
  s ∈ sanitize_requirements word requirements →
  (∃ line, line ∈ requirements ∧ s = strip line)
  ∧ s ≠ "" ∧ matches s = true ∧ strip s = s.
Proof.
  rewrite sanitize_requirements_filter.
  intros H. apply list_elem_of_In, filter_In in H as [H Hm].
  apply list_elem_of_In, list_elem_of_fmap in H as (line & -> & Hline).
  split; [by exists line|]. split; [|split].
  - intros Hs. by rewrite Hs in Hm.
  - done.
  - apply strip_strip.
Qed.

(** X8.  Sanitizing twice is sanitizing once. *)
Theorem sanitize_requirements_idempotent (requirements : list string) :
  sanitize_requirements word (sanitize_requirements word requirements)
  = sanitize_requirements word requirements.
Proof.
  rewrite !sanitize_requirements_filter.
  induction requirements as [|line l IH]; [done|].
  cbn [fmap list_fmap List.filter].
  destruct (matches (strip line)) eqn:Hm; [|exact IH].
  cbn [fmap list_fmap List.filter]. rewrite strip_strip, Hm.
  f_equal. exact IH.
Qed.

(** What one turn of the loop of [_sanitize_requirements] appends. *)
Lemma sanitize_line_elem (acc : list string) (line s : string) :
  s ∈ sanitize_line word acc line →
  s ∈ acc
  ∨ (matches line = true ∧ s ≠ "" ∧ strip s = s
     ∧ contains_char backslash s = false).
Proof.
  unfold sanitize_line. destruct (matches line); [|by left].
  set (line' := if contains_char backslash line
                then replace (String backslash EmptyString) "" line
                else line).
  assert (Hfree : contains_char backslash line' = false).
  { unfold line'. destruct (contains_char backslash line) eqn:Hc; [|done].
    apply replace_char_gone. }
  destruct (0 <? String.length (strip line'))%nat eqn:Hlen; [|by left].
  intros [H|H]%elem_of_app; [by left|right].
  apply list_elem_of_singleton in H as ->.
  split; [done|]. split; [|split].
  - intros Hs. by rewrite Hs in Hlen.
  - apply strip_strip.
  - destruct (contains_char backslash (strip line')) eqn:Hc; [|done].
    apply contains_char_strip in Hc. congruence.
Qed.

(** X9.  Every line [_sanitize_requirements] keeps is not empty, has no
    white space at either end and holds no backslash. *)
Theorem pypi_sanitized_line (requirements : list string) (s : string) :
  s ∈ _sanitize_requirements word requirements →
  s ≠ "" ∧ strip s = s ∧ contains_char backslash s = false.
Proof.
  unfold _sanitize_requirements.
  assert (H : ∀ acc,
    s ∈ foldl (sanitize_line word) acc requirements →
    s ∈ acc ∨ (s ≠ "" ∧ strip s = s ∧ contains_char backslash s = false)).
  { induction requirements as [|line l IH]; intros acc; [by left|].
    cbn [foldl]. intros [Hacc|Hs]%IH; [|by right].
    apply sanitize_line_elem in Hacc as [?|(_ & ?)]; [by left|by right]. }
  intros [Hnil|Hs]%H; [|done]. destruct (not_elem_of_nil _ Hnil).
Qed.

(** X10.  A requirement line that begins with white space is kept,
    stripped, by [sanitize_requirements] and dropped by
    [_sanitize_requirements], which tests the line before it strips it. *)
Theorem indented_line_kept_or_dropped (c : ascii) (rest : string) :
  isspace c = true → word c = false →
  matches (strip (String c rest)) = true →
  sanitize_requirements word [String c rest] = [strip (String c rest)]
  ∧ _sanitize_requirements word [String c rest] = [].
Proof.
  intros Hc Hw Hm. split.
  - rewrite sanitize_requirements_filter.
    cbn [fmap list_fmap List.filter]. by rewrite Hm.
  - unfold _sanitize_requirements, sanitize_line. cbn [foldl re_match_word].
    by rewrite Hw.
Qed.

End Sanitizers.

(** ** Scanning the resolved dependencies *)

Section ProjectScanning.
Import ProjectScanner ProjectScan.

Variable Results : Type.
Variable package_scan_remote : string -> string -> Exn + Results.
Variable walk :
  gmap string (option (gset string)) -> list (string * option (list string)).
Variable releases : string -> Exn + list string.
Variable re_search : string -> string -> Exn + bool.
Variable read_requirements : string -> Exn + list (Exn + Requirement).

#[local] Abbreviation versions_loop :=
  (scan_versions Results package_scan_remote).
#[local] Abbreviation items_loop := (scan_items Results package_scan_remote).
#[local] Abbreviation key := (fun d v : string => d +:+ "/" +:+ v).

(** A dependency bound to [None] ends the loop in an exception, whatever
    was scanned before. *)
Lemma scan_items_none (items : list (string * option (list string)))
    (project_results : gmap string Results) (name : string) :
  (name, None) ∈ items → ∃ e, items_loop items project_results = inl e.
Proof.
  revert project_results.
  induction items as [|[d [vs|]] items IH]; intros project_results Hin.
  - destruct (not_elem_of_nil _ Hin).
  - cbn [scan_items]. apply elem_of_cons in Hin as [[=]|Hin].
    destruct (versions_loop d vs project_results) as [e|r]; [by eexists|].
    by apply IH.
  - by eexists.
Qed.

Lemma scan_versions_report (d : string) (vs : list string)
    (project_results : gmap string Results) :
  (∀ v, v ∈ vs → ∃ r, package_scan_remote d v = inr r) →
  ∃ report,
    versions_loop d vs project_results = inr report
    ∧ (∀ k, is_Some (project_results !! k) → is_Some (report !! k))
    ∧ (∀ v, v ∈ vs → is_Some (report !! key d v))
    ∧ (∀ k r, report !! k = Some r →
         project_results !! k = Some r
         ∨ ∃ v, v ∈ vs ∧ k = key d v ∧ package_scan_remote d v = inr r).
Proof.
  revert project_results.
  induction vs as [|v vs IH]; intros project_results Hscan.
  - exists project_results. repeat split; auto.
    intros v Hv. destruct (not_elem_of_nil _ Hv).
  - cbn [scan_versions].
    destruct (Hscan v) as [r Hr]; [left|]. rewrite Hr.
    destruct (IH (<[key d v := r]> project_results))
      as (report & -> & Hkeep & Hnew & Hfrom).
    { intros v' Hv'. apply Hscan. by right. }
    exists report. split; [done|]. split; [|split].
    + intros k Hk. apply Hkeep.
      destruct (decide (key d v = k)) as [<-|Hne].
      * rewrite lookup_insert_eq. by eexists.
      * by rewrite lookup_insert_ne.
    + intros v' [->|Hv']%elem_of_cons; [|by apply Hnew].
      apply Hkeep. rewrite lookup_insert_eq. by eexists.
    + intros k r' Hk. destruct (Hfrom k r' Hk) as [Hold|(v' & ? & ? & ?)].
      * destruct (decide (key d v = k)) as [<-|Hne].
        -- rewrite lookup_insert_eq in Hold. injection Hold as <-.
           right. exists v. split; [left|done].
        -- rewrite lookup_insert_ne in Hold by done. by left.
      * right. exists v'. split; [by right|done].
Qed.

Lemma scan_items_report (items : list (string * option (list string)))
    (project_results : gmap string Results) :
  Forall (fun item => is_Some item.2) items →
  (∀ d vs v, (d, Some vs) ∈ items → v ∈ vs →
     ∃ r, package_scan_remote d v = inr r) →
  ∃ report,
    items_loop items project_results = inr report
    ∧ (∀ k, is_Some (project_results !! k) → is_Some (report !! k))
    ∧ (∀ d vs v, (d, Some vs) ∈ items → v ∈ vs →
         is_Some (report !! key d v))
    ∧ (∀ k r, report !! k = Some r →
         project_results !! k = Some r
         ∨ ∃ d vs v, (d, Some vs) ∈ items ∧ v ∈ vs ∧ k = key d v
                     ∧ package_scan_remote d v = inr r).
Proof.
  intros Hsome. revert project_results.
  induction Hsome as [|[d o] items [vs Hvs] _ IH]; intros project_results H.
  - exists project_results. repeat split; auto.
    intros d vs v Hin. destruct (not_elem_of_nil _ Hin).
  - cbn [snd] in Hvs. subst o. cbn [scan_items].
    destruct (scan_versions_report d vs project_results)
      as (mid & -> & Hkeep1 & Hnew1 & Hfrom1).
    { intros v Hv. apply (H d vs v); [left|done]. }
    destruct (IH mid) as (report & -> & Hkeep & Hnew & Hfrom).
    { intros d' vs' v' Hin. apply H. by right. }
    exists report. split; [done|]. split; [|split].
    + auto.
    + intros d' vs' v' [[= -> ->]|Hin]%elem_of_cons Hv'.
      * by apply Hkeep, Hnew1.
      * by eapply Hnew.
    + intros k r Hk.
      destruct (Hfrom k r Hk) as [Hmid|(d' & vs' & v' & ? & ? & ? & ?)].
      * destruct (Hfrom1 k r Hmid) as [?|(v' & ? & ? & ?)]; [by left|].
        right. exists d, vs, v'. split; [left|done].
      * right. exists d', vs', v'. split; [by right|done].
Qed.

(** X11.  When the resolver has bound a package to [None], be it for a
    registry that does not know it or for a requirement without a
    constraint, [scan_local] scans to no report: it prints the exception
    and exits with status 255. *)
Theorem unresolved_dependency_aborts_scan (path : string)
    (parsed : list (Exn + Requirement)) (name : string) :
  read_requirements path = inr parsed →
  (∀ dependencies n,
     dependencies !! n = Some None → (n, None) ∈ walk dependencies) →
  fst (parse_requirements releases re_search parsed) !! name = Some None →
  ∃ e,
    scan_local Results package_scan_remote walk releases re_search
      read_requirements path
    = (Cli.Exited 255, ["Received " +:+ e],
       snd (parse_requirements releases re_search parsed)).
Proof.
  intros Hread Hwalk Hnone. unfold scan_local, scan_requirements.
  rewrite Hread.
  destruct (parse_requirements releases re_search parsed)
    as [dependencies err].
  destruct (scan_items_none (walk dependencies) ∅ name) as [e He].
  { by apply Hwalk. }
  exists e. by rewrite He.
Qed.

(** X12.  When every dependency is bound to a set and every scan of a
    package returns, [scan_requirements] returns a report that has the key
    "dependency/version" for every version of every dependency, and whose
    every entry is the report of such a pair. *)
Theorem scan_requirements_report (parsed : list (Exn + Requirement)) :
  let items := walk (fst (parse_requirements releases re_search parsed)) in
  Forall (fun item => is_Some item.2) items →
  (∀ d vs v, (d, Some vs) ∈ items → v ∈ vs →
     ∃ r, package_scan_remote d v = inr r) →
  ∃ report,
    fst (scan_requirements Results package_scan_remote walk releases
           re_search parsed) = inr report
    ∧ (∀ d vs v, (d, Some vs) ∈ items → v ∈ vs →
         is_Some (report !! (d +:+ "/" +:+ v)))
    ∧ (∀ k r, report !! k = Some r →
         ∃ d vs v, (d, Some vs) ∈ items ∧ v ∈ vs
                   ∧ k = d +:+ "/" +:+ v
                   ∧ package_scan_remote d v = inr r).
Proof.
  intros items Hsome Hscan. unfold scan_requirements. subst items.
  destruct (parse_requirements releases re_search parsed)
    as [dependencies err]. cbn [fst] in *.
  destruct (scan_items_report (walk dependencies) ∅ Hsome Hscan)
    as (report & Hrun & _ & Hnew & Hfrom).
  exists report. split; [done|]. split; [done|].
  intros k r Hk. destruct (Hfrom k r Hk) as [Hempty|?]; [|done].
  by rewrite lookup_empty in Hempty.
Qed.

End ProjectScanning.

(** ** More on the resolver of [guarddog] *)

Section PypiResolver.
Import PyStr PypiProjectScanner.

Variable releases : string -> Exn + list string.
Variable specifier_filter : string -> list string -> option (list string).

#[local] Abbreviation find := (find_all_versions releases specifier_filter).
#[local] Abbreviation resolve := (resolve_all releases specifier_filter).

(** X13.  In best-match mode, when the specifier keeps some of the
    published versions, [find_all_versions] returns one of them alone: the
    greatest under the order of strings. *)
Theorem best_match_keeps_greatest_string (name semver_range : string)
    (keys filtered : list string) :
  releases name = inr keys →
  specifier_filter semver_range (sorted_reverse keys) = Some filtered →
  filtered ≠ [] →
  ∃ v, find false name semver_range = inr {[v]}
       ∧ v ∈ filtered
       ∧ ∀ x, x ∈ filtered → str_le x v = true.
Proof.
  intros Hk Hf Hne. unfold find_all_versions. rewrite Hk, Hf.
  destruct (best_matched_greatest_string filtered Hne)
    as (v & -> & Hv & Hmax).
  exists v. split; [|done]. f_equal. cbn [list_to_set].
  apply union_empty_r_L.
Qed.

(** Whatever the mode, a list of one candidate is kept as it is. *)
Lemma best_matched_single (exhaustive : bool) (v : string) :
  best_matched exhaustive [v] = inr [v].
Proof. by destruct exhaustive. Qed.

(** X14.  When [Specifier] rejects the range (as it does for the URL of a
    requirement), the range itself is returned as the only version, in
    either mode. *)
Theorem rejected_specifier_kept_raw (exhaustive : bool)
    (name semver_range : string) (keys : list string) :
  releases name = inr keys →
  specifier_filter semver_range (sorted_reverse keys) = None →
  find exhaustive name semver_range = inr {[semver_range]}.
Proof.
  intros Hk Hf. unfold find_all_versions.
  rewrite Hk, Hf, best_matched_single. f_equal. cbn [list_to_set].
  apply union_empty_r_L.
Qed.

Lemma find_best_match_size (name semver_range : string) (s : gset string) :
  find false name semver_range = inr s → (size s ≤ 1)%nat.
Proof.
  unfold find_all_versions. destruct (releases name) as [e|keys]; [done|].
  destruct (match specifier_filter semver_range (sorted_reverse keys)
            with Some filtered => filtered | None => [semver_range] end)
    as [|r0 kept].
  - cbn. intros [= <-]. rewrite size_empty. lia.
  - destruct (best_matched_greatest_string (r0 :: kept)) as (v & -> & _);
      [done|].
    intros [= <-]. cbn [list_to_set]. rewrite union_empty_r_L.
    by rewrite size_singleton.
Qed.

(** X15.  In best-match mode no package of the dictionary returned has
    more than one version. *)
Theorem best_match_at_most_one (parsed : list (Exn + Requirement))
    (name : string) (s : gset string) :
  fst (parse_requirements releases specifier_filter false parsed) !! name
  = Some s →
  (size s ≤ 1)%nat.
Proof.
  unfold parse_requirements.
  assert (H : ∀ dependencies err,
    (∀ n t, dependencies !! n = Some t → (size t ≤ 1)%nat) →
    ∀ n t, fst (resolve false parsed dependencies err) !! n = Some t →
           (size t ≤ 1)%nat).
  { induction parsed as [|[e|req] parsed IH]; intros dependencies err Hinv.
    - done.
    - cbn [resolve_all]. by apply IH.
    - cbn [resolve_all].
      destruct (find false (project_name req) (semver_range_of req))
        as [e|vs] eqn:Hfind.
      + by apply IH.
      + apply IH. intros n t.
        destruct (decide (project_name req = n)) as [<-|Hne].
        * rewrite lookup_insert_eq. intros [= <-].
          by eapply find_best_match_size.
        * rewrite lookup_insert_ne by done. apply Hinv. }
  apply H. intros n t. by rewrite lookup_empty.
Qed.

Lemma resolve_all_err_kept (exhaustive : bool)
    (parsed : list (Exn + Requirement))
    (dependencies : gmap string (gset string)) (err : list string)
    (line : string) :
  line ∈ err → line ∈ snd (resolve exhaustive parsed dependencies err).
Proof.
  revert dependencies err.
  induction parsed as [|[e|req] parsed IH]; intros dependencies err Hin.
  - done.
  - cbn [resolve_all]. apply IH. unfold emit. apply elem_of_app. by left.
  - cbn [resolve_all].
    destruct (find exhaustive (project_name req) (semver_range_of req)).
    + apply IH. unfold emit. apply elem_of_app. by left.
    + by apply IH.
Qed.

(** X16.  A requirement whose package's version list cannot be fetched is
    reported on [sys.stderr] and its package is left out of the dictionary
    returned. *)
Theorem unfetched_package_skipped (exhaustive : bool) (e : Exn)
    (parsed : list (Exn + Requirement)) (req : Requirement) :
  releases (project_name req) = inl e →
  inr req ∈ parsed →
  fst (parse_requirements releases specifier_filter exhaustive parsed)
    !! project_name req = None
  ∧ ("Package " +:+ project_name req +:+ " not on PyPI
") ∈ snd (parse_requirements releases specifier_filter exhaustive parsed).
Proof.
  intros He Hin. split.
  - unfold parse_requirements.
    by rewrite (unfetched_left_out _ _ _ _ _ _ _ _ He).
  - unfold parse_requirements. generalize (∅ : gmap string (gset string)).
    generalize (@nil string).
    induction parsed as [|item parsed IH]; intros err dependencies.
    + destruct (not_elem_of_nil _ Hin).
    + apply elem_of_cons in Hin as [<-|Hin].
      * cbn [resolve_all]. unfold find_all_versions. rewrite He.
        apply resolve_all_err_kept. unfold emit.
        apply elem_of_app. right. by apply list_elem_of_singleton.
      * destruct item as [e'|req']; cbn [resolve_all].
        -- by apply IH.
        -- destruct (find exhaustive (project_name req')
                       (semver_range_of req')); by apply IH.
Qed.

Lemma resolve_all_other_name (exhaustive : bool) (name : string)
    (rest : list (Exn + Requirement))
    (dependencies : gmap string (gset string)) (err : list string) :
  Forall (fun item => match item with
                      | inr r => project_name r ≠ name
                      | inl _ => True
                      end) rest →
  fst (resolve exhaustive rest dependencies err) !! name
  = dependencies !! name.
Proof.
  intros H. revert dependencies err.
  induction H as [|[e|r] rest Hr _ IH]; intros dependencies err.
  - done.
  - cbn [resolve_all]. apply IH.
  - cbn [resolve_all].
    destruct (find exhaustive (project_name r) (semver_range_of r)).
    + apply IH.
    + rewrite IH. by apply lookup_insert_ne.
Qed.

(** X17.  A requirement replaces the versions an earlier line gave its
    package (the two are not intersected), and its versions stay when no
    later requirement names the package. *)
Theorem later_line_replaces (exhaustive : bool) (req : Requirement)
    (versions : gset string) (rest : list (Exn + Requirement))
    (dependencies : gmap string (gset string)) (err : list string) :
  find exhaustive (project_name req) (semver_range_of req) = inr versions →
  Forall (fun item => match item with
                      | inr r => project_name r ≠ project_name req
                      | inl _ => True
                      end) rest →
  fst (resolve exhaustive (inr req :: rest) dependencies err)
    !! project_name req
  = Some versions.
Proof.
  intros Hfind Hrest. cbn [resolve_all]. rewrite Hfind.
  rewrite resolve_all_other_name by done. apply lookup_insert_eq.
Qed.

End PypiResolver.

(** ** More on the two dispatches *)

Section MetadataOrder.
Import Analyzer.

Context {Info Result : Type}.
Variable metadata_ruleset : list string.
Variable metadata_detectors : gmap string (Info -> Exn + Result).

(** X18.  The dictionary [analyze_metadata] returns does not depend on the
    order in which the selected rules are walked. *)
Theorem analyze_metadata_any_order (info : Info) (rules rules' : list string) :
  rules ≡ₚ rules' →
  fst (analyze_metadata Info Result metadata_ruleset metadata_detectors
         info (Some rules))
  = fst (analyze_metadata Info Result metadata_ruleset metadata_detectors
           info (Some rules')).
Proof.
  intros Hp. unfold analyze_metadata. apply map_eq. intros r.
  rewrite !analyze_rules_lookup.
  destruct (decide (r ∈ rules)) as [Hr|Hr], (decide (r ∈ rules')) as [Hr'|Hr'];
    try done.
  - rewrite Hp in Hr. done.
  - rewrite <- Hp in Hr'. done.
Qed.

End MetadataOrder.

Section SourcecodeMore.
Import Analyzer.

Variable sourcecode_path : string.
Variable sourcecode_ruleset : list string.
Variable path_join : string -> string -> string.
Variable abspath : string -> string.
Variable relpath : string -> string -> string.
Variable invoke_semgrep :
  string -> list string -> list string -> Exn + list Finding.

#[local] Abbreviation location := (location_of abspath relpath).
#[local] Abbreviation format := (_format_semgrep_response abspath relpath).
#[local] Abbreviation rule_file :=
  (Analyzer.rule_file sourcecode_path path_join).
#[local] Abbreviation located := (Analyzer.located abspath relpath).
#[local] Abbreviation found := (Analyzer.found abspath relpath).
#[local] Abbreviation analyze :=
  (analyze_sourcecode sourcecode_path sourcecode_ruleset path_join
     abspath relpath invoke_semgrep).

(** Under a location stands the text of the last finding there. *)
Lemma located_lookup (targetpath : option Target)
    (locations : gmap string string) (response : list Finding)
    (loc : string) :
  located targetpath locations response !! loc
  = match last (filter (fun f => location targetpath f = loc) response) with
    | Some f => Some (lines f)
    | None => locations !! loc
    end.
Proof.
  revert locations. induction response as [|f response IH]; intros locations.
  - done.
  - unfold Analyzer.located in *. cbn [foldl]. rewrite IH.
    destruct (decide (location targetpath f = loc)) as [Hl|Hl].
    + rewrite filter_cons_True by done. rewrite last_cons.
      destruct (last (filter _ response)); [done|].
      rewrite <- Hl. apply lookup_insert_eq.
    + rewrite filter_cons_False by done.
      destruct (last (filter _ response)); [done|].
      by apply lookup_insert_ne.
Qed.

(** X19.  In the dictionary [_format_semgrep_response] builds, the text
    under a label and a location is that of the last finding of the
    response with this label and location, and there is none when the
    response has no such finding; the location of a finding is relative
    to [targetpath] when [targetpath] is true and absolute when it is
    [None] or the empty string. *)
Theorem last_finding_wins (response : list Finding)
    (rule : option string) (targetpath : option Target) (l loc : string) :
  format response rule targetpath !! l ≫= (fun m => m !! loc)
  = lines <$> last (filter (fun f => location targetpath f = loc
                                     ∧ label_of rule f = l) response).
Proof.
  rewrite format_lookup, <- list_filter_filter.
  unfold Analyzer.found.
  destruct (filter (fun f => label_of rule f = l) response) as [|f fs] eqn:Hf.
  - done.
  - cbn [mbind option_bind]. rewrite located_lookup, lookup_empty.
    by destruct (last (filter _ (f :: fs))).
Qed.

(** A [targetpath] that is the empty string is not a target: the
    location stays absolute, as for [None]; a [Path] always is one. *)
Lemma location_of_empty_target (result : Finding) :
  location (Some (StrOf "")) result = location None result.
Proof. reflexivity. Qed.

Lemma location_of_path_target (p : string) (result : Finding) :
  location (Some (PathOf p)) result
  = relpath (abspath (path result)) p +:+ ":" +:+ pretty (start_line result).
Proof. reflexivity. Qed.

(** The loop binds no key but those of the selection, when its rules
    have names. *)
Lemma analyze_each_keys (targetpath : string) (rules : list string)
    (results m : gmap string (gmap string string)) (k : string) :
  "" ∉ rules →
  analyze_each sourcecode_path path_join abspath relpath invoke_semgrep
    targetpath rules results = inr m →
  is_Some (m !! k) → is_Some (results !! k) ∨ k ∈ rules.
Proof.
  revert results. induction rules as [|r rules IH]; intros results Hnamed.
  - cbn [analyze_each]. intros [= <-]. by left.
  - cbn [analyze_each].
    destruct (invoke_semgrep _ [targetpath] exclude) as [e|response];
      [done|].
    intros Hrun Hk.
    destruct (IH _ (fun H => Hnamed (list_elem_of_further _ _ _ H)) Hrun Hk)
      as [Hres|Hin]; [|right; by right].
    rewrite dict_or_lookup, format_lookup in Hres.
    destruct (decide (r = k)) as [->|Hne]; [right; left|].
    rewrite filter_other_label in Hres; [by left| |done].
    intros ->. apply Hnamed. left.
Qed.

(** The first rule the engine fails on ends the loop. *)
Lemma analyze_each_first_failure (targetpath : string)
    (rules : list string) (results : gmap string (gmap string string))
    (r : string) (e : Exn) :
  r ∈ rules →
  invoke_semgrep (rule_file r) [targetpath] exclude = inl e →
  ∃ r' e', r' ∈ rules
    ∧ invoke_semgrep (rule_file r') [targetpath] exclude = inl e'
    ∧ analyze_each sourcecode_path path_join abspath relpath invoke_semgrep
        targetpath rules results
      = inl (r' +:+ " is not an existing rule.").
Proof.
  revert results. induction rules as [|x rules IH]; intros results Hin He.
  - destruct (not_elem_of_nil _ Hin).
  - cbn [analyze_each]. fold (rule_file x).
    destruct (invoke_semgrep (rule_file x) [targetpath] exclude)
      as [e'|response] eqn:Hx.
    + exists x, e'. split; [left|done].
    + apply elem_of_cons in Hin as [->|Hin]; [congruence|].
      destruct (IH (dict_or results
                      (format response (Some x) (Some (PathOf targetpath)))) Hin He)
        as (r' & e' & Hr' & He' & ->).
      exists r', e'. split; [by right|done].
Qed.

(** X20.  When the engine raises on the file of a selected rule, the
    analysis returns no dictionary: it raises "<rule> is not an existing
    rule." for a selected rule the engine raised on, and the engine's own
    error is not passed on. *)
Theorem failing_rule_ends_analysis (path : string) (rules : list string)
    (r : string) (e : Exn) :
  r ∈ rules →
  invoke_semgrep (rule_file r) [path] exclude = inl e →
  ∃ r' e', r' ∈ rules
    ∧ invoke_semgrep (rule_file r') [path] exclude = inl e'
    ∧ analyze path (Some rules) = inl (r' +:+ " is not an existing rule.").
Proof.
  intros Hin He. unfold analyze_sourcecode.
  by eapply analyze_each_first_failure.
Qed.

(** X21.  When every selected rule has a name and the engine answers for
    each, the analysis returns a dictionary whose keys are exactly the
    selected rules, each bound to the locations of its own run; so the
    dictionary does not depend on the order in which the rules are
    walked. *)
Theorem per_rule_result (path : string) (rules rules' : list string)
    (answer : string -> list Finding) :
  "" ∉ rules →
  rules ≡ₚ rules' →
  (∀ r, r ∈ rules →
     invoke_semgrep (rule_file r) [path] exclude = inr (answer r)) →
  ∃ m : gmap string (gmap string string),
    analyze path (Some rules) = inr m
    ∧ analyze path (Some rules') = inr m
    ∧ ∀ l, m !! l = if decide (l ∈ rules)
                    then Some (default ∅ (found (Some (PathOf path)) (answer l)))
                    else None.
Proof.
  intros Hnamed Hp Hrun.
  set (g := fun r => format (answer r) (Some r) (Some (PathOf path))).
  assert (Hshape : ∀ rules0, "" ∉ rules0 →
    ∀ l, merged g (empty_results rules0) rules0 !! l
         = if decide (l ∈ rules0)
           then Some (default ∅ (found (Some (PathOf path)) (answer l)))
           else None).
  { intros rules0 Hnamed0 l.
    assert (Hg' : ∀ r, r ∈ rules0 → r ≠ l → g r !! l = None).
    { intros r Hr Hrl. unfold g. rewrite format_lookup.
      rewrite filter_other_label; [done| |done].
      intros ->. by apply Hnamed0. }
    destruct (decide (l ∈ rules0)) as [Hl|Hl].
    - rewrite merged_own by done.
      rewrite dict_or_lookup. unfold g. rewrite format_lookup.
      rewrite filter_own_label by (intros ->; by apply Hnamed0).
      destruct (found (Some (PathOf path)) (answer l)); [done|].
      rewrite empty_results_lookup. by rewrite decide_True.
    - rewrite merged_untouched.
      + rewrite empty_results_lookup. by rewrite decide_False.
      + intros r Hr. apply Hg'; [done|]. by intros ->. }
  exists (merged g (empty_results rules) rules). split; [|split].
  - unfold analyze_sourcecode. by apply analyze_each_merged.
  - unfold analyze_sourcecode.
    rewrite (analyze_each_merged _ _ _ _ _ path answer).
    + f_equal. apply map_eq. intros l. fold g.
      rewrite !Hshape; [|done|by rewrite <- Hp].
      destruct (decide (l ∈ rules)) as [Hr|Hr],
        (decide (l ∈ rules')) as [Hr'|Hr']; try done.
      * rewrite Hp in Hr. done.
      * rewrite <- Hp in Hr'. done.
    + intros r Hr. apply Hrun. by rewrite Hp.
  - by apply Hshape.
Qed.

End SourcecodeMore.

Section AnalyzeRules.
Import Analyzer AnalyzerDispatch.

Context {Info Result : Type}.
Variable metadata_ruleset : list string.
Variable metadata_detectors : gmap string (Info -> Exn + Result).
Variable sourcecode_path : string.
Variable sourcecode_ruleset : list string.
Variable path_join : string -> string -> string.
Variable abspath : string -> string.
Variable relpath : string -> string -> string.
Variable invoke_semgrep :
  string -> list string -> list string -> Exn + list Finding.
Variable walk : gset string -> list string.

#[local] Abbreviation sort_rules :=
  (classify metadata_ruleset sourcecode_ruleset).
#[local] Abbreviation analyze_all :=
  (analyze Info Result metadata_ruleset metadata_detectors sourcecode_path
     sourcecode_ruleset path_join abspath relpath invoke_semgrep walk).

Lemma classify_invalid (rules : list string) (r : string)
    (sourcecode_rules metadata_rules : gset string) :
  r ∈ rules → (r ∉ sourcecode_ruleset) → (r ∉ metadata_ruleset) →
  ∃ r', r' ∈ rules ∧ (r' ∉ sourcecode_ruleset) ∧ (r' ∉ metadata_ruleset)
        ∧ sort_rules rules sourcecode_rules metadata_rules
          = inl (r' +:+ " is not a valid rule.").
Proof.
  revert sourcecode_rules metadata_rules.
  induction rules as [|x rules IH]; intros S M Hin Hs Hm.
  - destruct (not_elem_of_nil _ Hin).
  - cbn [classify]. case_bool_decide as Hxs.
    + apply elem_of_cons in Hin as [->|Hin]; [done|].
      destruct (IH ({[x]} ∪ S) M Hin Hs Hm) as (r' & ? & ? & ? & ->).
      exists r'. split; [by right|done].
    + case_bool_decide as Hxm.
      * apply elem_of_cons in Hin as [->|Hin]; [done|].
        destruct (IH S ({[x]} ∪ M) Hin Hs Hm) as (r' & ? & ? & ? & ->).
        exists r'. split; [by right|done].
      * exists x. split; [left|done].
Qed.

Lemma classify_sets (rules : list string)
    (S M S' M' : gset string) (x : string) :
  sort_rules rules S M = inr (S', M') →
  (x ∈ S' → x ∈ S ∨ x ∈ rules) ∧ (x ∈ M' → x ∈ M ∨ x ∈ rules).
Proof.
  revert S M. induction rules as [|y rules IH]; intros S M.
  - cbn [classify]. intros [= <- <-]. auto.
  - cbn [classify]. case_bool_decide; [|case_bool_decide; [|done]].
    + intros [HS HM]%IH. split.
      * intros [[Hx|Hx]%elem_of_union|Hx]%HS; [|by left|right; by right].
        apply elem_of_singleton in Hx as ->. right. left.
      * intros [Hx|Hx]%HM; [by left|right; by right].
    + intros [HS HM]%IH. split.
      * intros [Hx|Hx]%HS; [by left|right; by right].
      * intros [[Hx|Hx]%elem_of_union|Hx]%HM; [|by left|right; by right].
        apply elem_of_singleton in Hx as ->. right. left.
Qed.

(** X22.  When a requested rule is in neither catalog, [analyze] raises
    "<rule> is not a valid rule." for such a rule, before any detector has
    run: nothing is written to [sys.stderr]. *)
Theorem invalid_rule_rejected (path : string) (info : Info)
    (rules : list string) (r : string) :
  r ∈ rules → (r ∉ sourcecode_ruleset) → (r ∉ metadata_ruleset) →
  ∃ r', r' ∈ rules ∧ (r' ∉ sourcecode_ruleset) ∧ (r' ∉ metadata_ruleset)
        ∧ analyze_all path info (Some rules)
          = (inl (r' +:+ " is not a valid rule."), []).
Proof.
  intros Hin Hs Hm. unfold analyze.
  destruct (classify_invalid rules r ∅ ∅ Hin Hs Hm) as (r' & ? & ? & ? & ->).
  by exists r'.
Qed.

(** X23.  [analyze] reports requested rules only: when the rules are
    given and have names, every key of the dictionary it returns is one
    of them. *)
Theorem only_requested_rules_reported (path : string) (info : Info)
    (rules : list string) (m : gmap string (RuleResult Result))
    (err : list string) (k : string) :
  (∀ s x, x ∈ walk s → x ∈ s) →
  "" ∉ rules →
  analyze_all path info (Some rules) = (inr m, err) →
  is_Some (m !! k) → k ∈ rules.
Proof.
  intros Hwalk Hnamed. unfold analyze.
  destruct (sort_rules rules ∅ ∅) as [e|[S M]] eqn:Hsort; [done|].
  assert (HS : ∀ x, x ∈ walk S → x ∈ rules).
  { intros x Hx%Hwalk.
    destruct (proj1 (classify_sets _ _ _ _ _ x Hsort) Hx) as [H|H]; [|done].
    by apply not_elem_of_empty in H. }
  assert (HM : ∀ x, x ∈ walk M → x ∈ rules).
  { intros x Hx%Hwalk.
    destruct (proj2 (classify_sets _ _ _ _ _ x Hsort) Hx) as [H|H]; [|done].
    by apply not_elem_of_empty in H. }
  unfold dispatch.
  destruct (analyze_metadata Info Result metadata_ruleset metadata_detectors
              info (Some (walk M))) as [metadata err0] eqn:Hmeta.
  destruct (analyze_sourcecode sourcecode_path sourcecode_ruleset path_join
              abspath relpath invoke_semgrep path (Some (walk S)))
    as [e|sourcecode] eqn:Hsrc; [done|].
  intros [= <- <-]. unfold both. rewrite dict_or_lookup, !lookup_fmap.
  destruct (sourcecode !! k) as [locs|] eqn:Hk; cbn [fmap option_fmap option_map].
  - intros _. unfold analyze_sourcecode in Hsrc.
    destruct (analyze_each_keys _ _ _ _ _ _ _ _ _ k
                (fun H => Hnamed (HS _ H)) Hsrc) as [Hres|Hin].
    + by rewrite Hk.
    + rewrite empty_results_lookup in Hres.
      destruct (decide (k ∈ walk S)); [by apply HS|].
      by destruct Hres.
    + by apply HS.
  - intros Hmk. apply HM.
    assert (Hfst : metadata
                   = fst (analyze_metadata Info Result metadata_ruleset
                            metadata_detectors info (Some (walk M))))
      by (by rewrite Hmeta).
    unfold analyze_metadata in Hfst. rewrite Hfst in Hmk.
    rewrite analyze_rules_lookup, lookup_empty in Hmk.
    destruct (decide (k ∈ walk M)); [done|].
    by destruct Hmk as [? [=]].
Qed.

End AnalyzeRules.

(** ** The catalogs *)

Section Catalogs.
Import PyText AnalyzerInit.

Lemma endswith_app (stem ext : string) : endswith (stem +:+ ext) ext = true.
Proof.
  induction stem as [|c stem IH].
  - destruct ext as [|a ext]; [done|].
    change (endswith ("" +:+ String a ext) (String a ext))
      with (String.eqb (String a ext) (String a ext)
            || endswith ext (String a ext)).
    by rewrite String.eqb_refl.
  - change (endswith (String c stem +:+ ext) ext)
      with (String.eqb (String c (stem +:+ ext)) ext
            || endswith (stem +:+ ext) ext).
    rewrite IH. apply orb_true_r.
Qed.

Lemma prefix_refl (s : string) : String.prefix s s = true.
Proof.
  induction s as [|c s IH]; [done|]. cbn [String.prefix].
  by destruct (ascii_dec c c).
Qed.

Lemma replace_from_skipped (old new s : string) :
  replace_from old new (String.length s) s = "".
Proof. induction s as [|c s IH]; [done|]. exact IH. Qed.

(** A name that ends in the extension and has its first character
    nowhere else loses exactly the extension. *)
Lemma replace_extension (c : ascii) (e stem : string) :
  contains_char c stem = false →
  replace (String c e) "" (stem +:+ String c e) = stem.
Proof.
  unfold replace. induction stem as [|d stem IH]; intros Hfree.
  - change ("" +:+ String c e) with (String c e).
    cbn [replace_from]. rewrite prefix_refl.
    cbn [String.length Nat.sub]. rewrite Nat.sub_0_r.
    by rewrite replace_from_skipped.
  - cbn [contains_char] in Hfree. apply orb_false_iff in Hfree as [Hcd Hfree].
    change (String d stem +:+ String c e)
      with (String d (stem +:+ String c e)).
    cbn [replace_from String.prefix].
    destruct (ascii_dec c d) as [->|Hne].
    + by rewrite Ascii.eqb_refl in Hcd.
    + by rewrite IH.
Qed.

Lemma get_rules_stem (c : ascii) (e stem : string) (listing : list string) :
  contains_char c stem = false →
  (stem +:+ String c e) ∈ listing →
  stem ∈ get_rules (String c e) listing.
Proof.
  intros Hfree Hin. unfold get_rules.
  apply elem_of_list_to_set, list_elem_of_fmap.
  exists (stem +:+ String c e). split; [by rewrite replace_extension|].
  apply list_elem_of_In, filter_In. split; [by apply list_elem_of_In|].
  apply endswith_app.
Qed.

(** X24.  Every file of the sourcecode directory named <stem>.yml, with no
    dot in the stem, gives the rule <stem>. *)
Theorem sourcecode_rule_of_file (stem : string) (listing : list string) :
  contains_char "." stem = false →
  (stem +:+ ".yml") ∈ listing →
  stem ∈ sourcecode_ruleset listing.
Proof. apply get_rules_stem. Qed.

(** X25.  When the metadata directory holds detector.py, the metadata
    catalog is built, [detector] is not in it, and every other file named
    <stem>.py with no dot in the stem gives the rule <stem>, be there a
    detector of that name or not. *)
Theorem metadata_rules_of_files (listing : list string) :
  "detector.py" ∈ listing →
  ∃ rules, metadata_ruleset listing = inr rules
    ∧ ("detector" ∉ rules)
    ∧ ∀ stem, contains_char "." stem = false → stem ≠ "detector" →
        (stem +:+ ".py") ∈ listing → stem ∈ rules.
Proof.
  intros Hdet. unfold metadata_ruleset.
  rewrite bool_decide_eq_true_2.
  2:{ by apply (get_rules_stem "." "py" "detector"). }
  eexists. split; [done|]. split.
  - intros [_ H]%elem_of_difference. apply H. by apply elem_of_singleton.
  - intros stem Hfree Hne Hin. apply elem_of_difference. split.
    + by apply (get_rules_stem "." "py").
    + by intros ->%elem_of_singleton.
Qed.

End Catalogs.

(** ** The outcome of a scan on the command line *)

Section ScanOutcome.
Import Cli.

Variable ALL_RULES : gset string.
Variable Results : Type.
Variable issues : Results -> option Z.
Variable print_scan_results : Results -> string -> list string.
Variable dumps : Results -> string.
Variable get_package_scanner : Ecosystem -> option (PackageScanner Results).
Variable path_exists : string -> bool.
Variable show_ecosystem : Ecosystem -> string.

#[local] Abbreviation scan_command :=
  (_scan ALL_RULES Results issues print_scan_results dumps
     get_package_scanner path_exists show_ecosystem).

(** X26.  When the target is no local path and the remote scan raises,
    [_scan] writes the error to [sys.stderr] and exits with status 0,
    whatever the output format and also when a non-zero exit on findings
    was asked for; nothing is printed. *)
Theorem failed_remote_scan_exits_zero (target : string)
    (version : option string) (rules exclude_rules : list string)
    (rule_param : option RuleParam) (scanner : PackageScanner Results)
    (e : Exn) (output_format : option string)
    (exit_non_zero_on_finding : bool) (ecosystem : Ecosystem) :
  _get_rule_pram ALL_RULES rules exclude_rules [] = (Returned rule_param, []) →
  get_package_scanner ecosystem = Some scanner →
  path_exists target = false →
  scan_remote Results scanner target version rule_param = inl e →
  scan_command target version rules exclude_rules output_format
    exit_non_zero_on_finding ecosystem []
  = (Exited 0,
     [GotScanner ecosystem false;
      ScannedRemote target version rule_param;
      ErrWritten "
"; ErrWritten e]).
Proof.
  intros Hparam Hscanner Hpath Hscan. unfold _scan.
  by rewrite Hparam, Hscanner, Hpath, Hscan.
Qed.

(** X27.  When the scan returns a report, [_scan] exits with status 1
    exactly when a non-zero exit on findings was asked for and the report
    counts at least one issue; otherwise it returns, also with findings. *)
Theorem scan_exit_status (target : string) (version : option string)
    (rules exclude_rules : list string) (rule_param : option RuleParam)
    (scanner : PackageScanner Results) (results : Results)
    (output_format : option string) (exit_non_zero_on_finding : bool)
    (ecosystem : Ecosystem) :
  _get_rule_pram ALL_RULES rules exclude_rules [] = (Returned rule_param, []) →
  get_package_scanner ecosystem = Some scanner →
  (path_exists target = true
   ∧ scan_local Results scanner target rule_param = inr results)
  ∨ (path_exists target = false
     ∧ scan_remote Results scanner target version rule_param = inr results) →
  fst (scan_command target version rules exclude_rules output_format
         exit_non_zero_on_finding ecosystem [])
  = if exit_non_zero_on_finding && (0 <? default 0 (issues results))%Z
    then Exited 1 else Returned tt.
Proof.
  intros Hparam Hscanner Hscan. unfold _scan.
  rewrite Hparam, Hscanner.
  destruct Hscan as [[-> ->]|[-> ->]];
    destruct exit_non_zero_on_finding; cbn [andb fst]; try done;
    unfold exit_with_status_code, IssuesFound;
    destruct (issues results) as [n|]; cbn [default]; try done;
    by destruct (0 <? n)%Z.
Qed.

End ScanOutcome.

(** ** The remote scan of a project *)

Section RemoteScan.
Import PyText ProjectScanner ProjectRemote.

(** A piece of text that lacks the first character of [old] is copied. *)
Lemma replace_from_free (c : ascii) (e new p s : string) :
  contains_char c p = false →
  replace_from (String c e) new 0 (p +:+ s)
  = p +:+ replace_from (String c e) new 0 s.
Proof.
  induction p as [|d p IH]; intros Hfree; [done|].
  cbn [contains_char] in Hfree. apply orb_false_iff in Hfree as [Hcd Hfree].
  change (String d p +:+ s) with (String d (p +:+ s)).
  change (String d p +:+ replace_from (String c e) new 0 s)
    with (String d (p +:+ replace_from (String c e) new 0 s)).
  cbn [replace_from String.prefix].
  destruct (ascii_dec c d) as [->|Hne].
  - by rewrite Ascii.eqb_refl in Hcd.
  - by rewrite IH.
Qed.

Lemma replace_from_skip (old new t s : string) :
  replace_from old new (String.length t) (t +:+ s) = replace_from old new 0 s.
Proof.
  induction t as [|a t IH]; [by destruct s|].
  change (String a t +:+ s) with (String a (t +:+ s)). exact IH.
Qed.

Lemma prefix_app (t s : string) : String.prefix t (t +:+ s) = true.
Proof.
  induction t as [|a t IH]; [by destruct s|].
  change (String a t +:+ s) with (String a (t +:+ s)).
  cbn [String.prefix]. by destruct (ascii_dec a a).
Qed.

(** An occurrence of [old] is replaced and the search goes on after it. *)
Lemma replace_from_occurrence (c : ascii) (e new s : string) :
  replace_from (String c e) new 0 (String c e +:+ s)
  = new +:+ replace_from (String c e) new 0 s.
Proof.
  change (String c e +:+ s) with (String c (e +:+ s)).
  cbn [replace_from].
  change (String c (e +:+ s)) with (String c e +:+ s).
  rewrite prefix_app. cbn [String.length Nat.sub].
  by rewrite Nat.sub_0_r, replace_from_skip.
Qed.

Lemma replace_free (c : ascii) (e new s : string) :
  contains_char c s = false → replace (String c e) new s = s.
Proof.
  intros Hfree. unfold replace.
  assert (Hs : s = s +:+ "").
  { clear. induction s as [|a s IH]; [done|].
    change (String a s +:+ "") with (String a (s +:+ "")). by rewrite <- IH. }
  rewrite Hs at 1. rewrite (replace_from_free _ _ _ _ _ Hfree).
  cbn [replace_from]. by rewrite <- Hs.
Qed.

(** X28.  For an address made of a part without the letter g, the word
    github and another part without the letter g, the requirements are
    asked for at the address with raw.githubusercontent in place of
    github, followed by the branch and the name of the file. *)
Theorem requirements_url_rewritten
    (before after branch requirements_name : string) :
  contains_char "g" before = false →
  contains_char "g" after = false →
  requirements_url (before +:+ "github" +:+ after) branch requirements_name
  = before +:+ "raw.githubusercontent" +:+ after
    +:+ "/" +:+ branch +:+ "/" +:+ requirements_name.
Proof.
  intros Hb Ha. unfold requirements_url, replace.
  rewrite (replace_from_free "g" "ithub" _ _ _ Hb).
  rewrite (replace_from_occurrence "g" "ithub").
  fold (replace "github" "raw.githubusercontent" after).
  rewrite (replace_free "g" "ithub" _ _ Ha).
  assert (Hassoc : ∀ a b c : string, (a +:+ b) +:+ c = a +:+ b +:+ c).
  { clear. intros a b c. induction a as [|x a IH]; [done|].
    change ((String x a +:+ b) +:+ c) with (String x ((a +:+ b) +:+ c)).
    by rewrite IH. }
  by rewrite !Hassoc.
Qed.

Variable Results : Type.
Variable getenv : string -> option string.
Variable http_get :
  string -> string * string -> Exn + Z * list (Exn + Requirement).
Variable scan_requirements :
  list (Exn + Requirement) -> (Exn + gmap string Results) * list string.

(** X29.  Without both GIT_USERNAME and GH_TOKEN in the environment
    [scan_remote] prints a warning and exits with status 1 without asking
    for any address; with both and an answer other than 200 it exits with
    status 255 without scanning. *)
Theorem scan_remote_refusals (url branch requirements_name : string) :
  let run :=
    scan_remote Results getenv http_get scan_requirements
      url branch requirements_name in
  (getenv "GIT_USERNAME" = None ∨ getenv "GH_TOKEN" = None →
   outcome Results run = Cli.Exited 1
   ∧ requested Results run = [] ∧ length (printed Results run) = 1)
  ∧ ∀ user token status_code parsed,
      getenv "GIT_USERNAME" = Some user →
      getenv "GH_TOKEN" = Some token →
      http_get (requirements_url url branch requirements_name) (user, token)
      = inr (status_code, parsed) →
      status_code ≠ 200%Z →
      outcome Results run = Cli.Exited 255
      ∧ errors Results run = []
      ∧ printed Results run
        = [requirements_url url branch requirements_name
           +:+ " does not exist. " +:+ "Check your link or branch name."].
Proof.
  intros run. subst run. split.
  - intros H. unfold scan_remote, _authenticate_by_access_token.
    destruct H as [-> | ->]; [done|].
    by destruct (getenv "GIT_USERNAME").
  - intros user token status_code parsed Hu Ht Hget Hstatus.
    unfold scan_remote, _authenticate_by_access_token.
    rewrite Hu, Ht, Hget.
    destruct (status_code =? 200)%Z eqn:E; [|done].
    by apply Z.eqb_eq in E.
Qed.

End RemoteScan.

(** ** The properties above at sample inputs *)

Section SanitizerExamples.
Import PyText ProjectScan PypiSanitize.

(** A requirement between white space, and a comment. *)
Lemma sanitized_line_witness :
  (∃ line, line ∈ ["  flask 
"; "# pinned"] ∧ "flask" = strip line)
  ∧ "flask" ≠ "" ∧ re_match_word ascii_word "flask" = true
  ∧ strip "flask" = "flask".
Proof.
  apply (sanitized_line ascii_word ["  flask 
"; "# pinned"] "flask").
  vm_compute. left.
Defined.

(** A requirement continued on the next line. *)
Lemma pypi_sanitized_line_witness :
  "flask" ≠ "" ∧ strip "flask" = "flask"
  ∧ contains_char backslash "flask" = false.
Proof.
  apply (pypi_sanitized_line ascii_word ["flask \"; "  # pinned"] "flask").
  vm_compute. left.
Defined.

(** A requirement after a blank. *)
Lemma indented_line_kept_or_dropped_witness :
  sanitize_requirements ascii_word [" flask"] = [strip " flask"]
  ∧ _sanitize_requirements ascii_word [" flask"] = [].
Proof.
  apply (indented_line_kept_or_dropped ascii_word " " "flask");
    reflexivity.
Defined.

End SanitizerExamples.

Section ProjectScanningExamples.
Import ProjectScanner ProjectScan.

Lemma sample_walk_none (dependencies : gmap string (option (gset string)))
    (n : string) :
  dependencies !! n = Some None → (n, None) ∈ sample_walk dependencies.
Proof.
  intros H. unfold sample_walk. apply list_elem_of_fmap.
  exists (n, None). split; [done|]. by apply elem_of_map_to_list.
Qed.

(** A requirements file that names a package without a constraint. *)
Lemma unresolved_dependency_aborts_scan_witness :
  ∃ e,
    scan_local string sample_package_scan sample_walk
      (registry_of ["1.0"]) search_exact (fun _ => inr bare_requirement)
      "requirements.txt"
    = (Cli.Exited 255, ["Received " +:+ e],
       snd (parse_requirements (registry_of ["1.0"]) search_exact
              bare_requirement)).
Proof.
  apply (unresolved_dependency_aborts_scan string sample_package_scan
           sample_walk (registry_of ["1.0"]) search_exact
           (fun _ => inr bare_requirement) "requirements.txt"
           bare_requirement "requests").
  - reflexivity.
  - apply sample_walk_none.
  - vm_compute. reflexivity.
Defined.

(** A package with two constraints on one line, resolved to three
    versions. *)
Lemma scan_requirements_report_witness :
  let releases := registry_of ["0.9"; "1.0"; "1.5"; "1.9"; "2.0"; "2.1"] in
  let parsed :=
    [inr (mkRequirement "pkg" [(">=", "1.0"); ("<", "2.0")])] in
  let items := sample_walk (fst (parse_requirements releases search_exact
                                   parsed)) in
  ∃ report,
    fst (scan_requirements string sample_package_scan sample_walk releases
           search_exact parsed) = inr report
    ∧ (∀ d vs v, (d, Some vs) ∈ items → v ∈ vs →
         is_Some (report !! (d +:+ "/" +:+ v)))
    ∧ (∀ k r, report !! k = Some r →
         ∃ d vs v, (d, Some vs) ∈ items ∧ v ∈ vs
                   ∧ k = d +:+ "/" +:+ v
                   ∧ sample_package_scan d v = inr r).
Proof.
  intros releases parsed.
  apply (scan_requirements_report string sample_package_scan sample_walk
           releases search_exact parsed).
  - vm_compute. repeat econstructor.
  - intros d vs v _ _. eexists. reflexivity.
Defined.

End ProjectScanningExamples.

Section PypiResolverExamples.
Import PyStr PypiProjectScanner.

(** Three releases that all pass the specifier. *)
Lemma best_match_keeps_greatest_string_witness :
  ∃ v, find_all_versions (registry_of ["0.5"; "1.10"; "1.9"])
         satisfied_by_all false "pkg" ">=0"
       = inr {[v]}
       ∧ v ∈ ["1.9"; "1.10"; "0.5"]
       ∧ ∀ x, x ∈ ["1.9"; "1.10"; "0.5"] → str_le x v = true.
Proof.
  apply (best_match_keeps_greatest_string (registry_of ["0.5"; "1.10"; "1.9"])
           satisfied_by_all "pkg" ">=0" ["0.5"; "1.10"; "1.9"]
           ["1.9"; "1.10"; "0.5"]).
  - reflexivity.
  - reflexivity.
  - discriminate.
Defined.

(** A requirement given by an address. *)
Lemma rejected_specifier_kept_raw_witness :
  find_all_versions (registry_of ["1.0"]) rejected true
    "pkg" "https://example.org/pkg.zip"
  = inr {["https://example.org/pkg.zip"]}.
Proof.
  apply (rejected_specifier_kept_raw (registry_of ["1.0"]) rejected true
           "pkg" "https://example.org/pkg.zip" ["1.0"]);
    reflexivity.
Defined.

(** Two packages in best-match mode. *)
Lemma best_match_at_most_one_witness :
  (size ({["1.9"]} : gset string) ≤ 1)%nat.
Proof.
  apply (best_match_at_most_one (registry_of ["1.9"; "1.10"])
           satisfied_by_all
           [inr (mkRequirement "pkg" None ">=1.0");
            inr (mkRequirement "lib" None "")] "pkg").
  vm_compute. reflexivity.
Defined.

(** A package the registry knows and one it does not. *)
Lemma unfetched_package_skipped_witness :
  let parsed := [inr (mkRequirement "pkg" None ">=1.0");
                 inr (mkRequirement "ghost" None ">=1.0")] in
  fst (parse_requirements (registry_with "pkg" ["1.0"]) satisfied_by_all
         false parsed) !! "ghost" = None
  ∧ ("Package " +:+ "ghost" +:+ " not on PyPI
") ∈ snd (parse_requirements (registry_with "pkg" ["1.0"]) satisfied_by_all
            false parsed).
Proof.
  intros parsed.
  apply (unfetched_package_skipped (registry_with "pkg" ["1.0"])
           satisfied_by_all false "'releases'" parsed
           (mkRequirement "ghost" None ">=1.0")).
  - reflexivity.
  - right. left.
Defined.

(** A second line for a package an earlier line gave the version 0.1. *)
Lemma later_line_replaces_witness :
  fst (resolve_all (registry_of ["1.9"; "1.10"]) satisfied_by_all false
         [inr (mkRequirement "pkg" None ">=1.0");
          inr (mkRequirement "lib" None "")]
         {["pkg" := {["0.1"]}]} []) !! "pkg"
  = Some {["1.9"]}.
Proof.
  apply (later_line_replaces (registry_of ["1.9"; "1.10"]) satisfied_by_all
           false (mkRequirement "pkg" None ">=1.0") {["1.9"]}
           [inr (mkRequirement "lib" None "")] {["pkg" := {["0.1"]}]} []).
  - vm_compute. reflexivity.
  - constructor; [discriminate|constructor].
Defined.

End PypiResolverExamples.

Section DispatchExamples.
Import Analyzer AnalyzerDispatch AnalyzerInit.

(** Two detectors walked in one order and in the other. *)
Lemma analyze_metadata_any_order_witness :
  fst (analyze_metadata unit bool sample_metadata_ruleset sample_detectors
         tt (Some ["typosquatting"; "compromised_email"]))
  = fst (analyze_metadata unit bool sample_metadata_ruleset sample_detectors
           tt (Some ["compromised_email"; "typosquatting"])).
Proof.
  apply (analyze_metadata_any_order sample_metadata_ruleset sample_detectors
           tt ["typosquatting"; "compromised_email"]
           ["compromised_email"; "typosquatting"]).
  apply perm_swap.
Defined.

(** A rule without a file among the selected ones. *)
Lemma failing_rule_ends_analysis_witness :
  ∃ r' e', r' ∈ ["shady-links"; "ghost"]
    ∧ sample_engine (rule_file "rules" sample_join r') ["/tmp/pkg"] exclude
      = inl e'
    ∧ sample_analyze "/tmp/pkg" (Some ["shady-links"; "ghost"])
      = inl (r' +:+ " is not an existing rule.").
Proof.
  apply (failing_rule_ends_analysis "rules" sample_ruleset sample_join
           sample_abspath sample_relpath sample_engine "/tmp/pkg"
           ["shady-links"; "ghost"] "ghost" "invalid configuration").
  - right. left.
  - reflexivity.
Defined.

(** The two rules of the catalog in one order and in the other. *)
Lemma per_rule_result_witness :
  ∃ m : gmap string (gmap string string),
    sample_analyze "/tmp/pkg" (Some ["exec-base64"; "shady-links"]) = inr m
    ∧ sample_analyze "/tmp/pkg" (Some ["shady-links"; "exec-base64"]) = inr m
    ∧ ∀ l, m !! l
           = if decide (l ∈ ["exec-base64"; "shady-links"])
             then Some (default ∅
                          (found sample_abspath sample_relpath
                             (Some (PathOf "/tmp/pkg")) (sample_answer l)))
             else None.
Proof.
  apply (per_rule_result "rules" sample_ruleset sample_join sample_abspath
           sample_relpath sample_engine "/tmp/pkg"
           ["exec-base64"; "shady-links"] ["shady-links"; "exec-base64"]
           sample_answer).
  - intros H. repeat (apply elem_of_cons in H as [H|H]; [discriminate H|]).
    exact (not_elem_of_nil _ H).
  - apply perm_swap.
  - intros r H.
    repeat (apply elem_of_cons in H as [->|H]; [reflexivity|]).
    destruct (not_elem_of_nil _ H).
Defined.

(** A rule of neither catalog among the requested ones. *)
Lemma invalid_rule_rejected_witness :
  ∃ r', r' ∈ ["shady-links"; "no-such-rule"]
    ∧ (r' ∉ sample_ruleset) ∧ (r' ∉ sample_metadata_ruleset)
    ∧ sample_analyze_all "/tmp/pkg" tt (Some ["shady-links"; "no-such-rule"])
      = (inl (r' +:+ " is not a valid rule."), []).
Proof.
  apply (invalid_rule_rejected sample_metadata_ruleset sample_detectors
           "rules" sample_ruleset sample_join sample_abspath sample_relpath
           sample_engine elements "/tmp/pkg" tt
           ["shady-links"; "no-such-rule"] "no-such-rule").
  - right. left.
  - intros H. repeat (apply elem_of_cons in H as [H|H]; [discriminate H|]).
    exact (not_elem_of_nil _ H).
  - intros H. repeat (apply elem_of_cons in H as [H|H]; [discriminate H|]).
    exact (not_elem_of_nil _ H).
Defined.

(** A sourcecode rule and a metadata rule requested together. *)
Lemma only_requested_rules_reported_witness :
  "shady-links" ∈ ["shady-links"; "empty_information"].
Proof.
  apply (only_requested_rules_reported sample_metadata_ruleset
           sample_detectors "rules" sample_ruleset sample_join
           sample_abspath sample_relpath sample_engine elements
           "/tmp/pkg" tt ["shady-links"; "empty_information"]
           {[ "shady-links" :=
                Located {[ "util.py:7" := "get('http://bit.ly/x')" ]};
              "empty_information" := Detected true ]}
           [] "shady-links").
  - intros s x. apply elem_of_elements.
  - intros H. repeat (apply elem_of_cons in H as [H|H]; [discriminate H|]).
    exact (not_elem_of_nil _ H).
  - vm_compute. reflexivity.
  - eexists. vm_compute. reflexivity.
Defined.

(** The directory of the sourcecode rules. *)
Lemma sourcecode_rule_of_file_witness :
  "shady-links" ∈ sourcecode_ruleset ["README.md"; "shady-links.yml"].
Proof.
  apply (sourcecode_rule_of_file "shady-links"
           ["README.md"; "shady-links.yml"]).
  - reflexivity.
  - right. left.
Defined.

(** The directory of the detectors. *)
Lemma metadata_rules_of_files_witness :
  ∃ rules,
    metadata_ruleset ["__init__.py"; "detector.py"; "typosquatting.py"]
    = inr rules
    ∧ ("detector" ∉ rules)
    ∧ ∀ stem, PyText.contains_char "." stem = false → stem ≠ "detector" →
        (stem +:+ ".py")
          ∈ ["__init__.py"; "detector.py"; "typosquatting.py"] →
        stem ∈ rules.
Proof.
  apply (metadata_rules_of_files
           ["__init__.py"; "detector.py"; "typosquatting.py"]).
  right. left.
Defined.

End DispatchExamples.

Section ScanOutcomeExamples.
Import Cli ProjectRemote.

(** A package that is neither a path nor known to the registry. *)
Lemma failed_remote_scan_exits_zero_witness :
  _scan two_rules unit two_issues (fun _ _ => []) (fun _ => "{}")
    (fun _ => Some unreachable_package_scanner) (fun _ => false)
    (fun _ => "pypi")
    "no-such-package" None [] [] (Some "json") true PYPI []
  = (Exited 0,
     [GotScanner PYPI false; ScannedRemote "no-such-package" None None;
      ErrWritten "
"; ErrWritten "not found"]).
Proof.
  apply (failed_remote_scan_exits_zero two_rules unit two_issues
           (fun _ _ => []) (fun _ => "{}")
           (fun _ => Some unreachable_package_scanner) (fun _ => false)
           (fun _ => "pypi")
           "no-such-package" None [] [] None unreachable_package_scanner
           "not found" (Some "json") true PYPI);
    reflexivity.
Defined.

(** A local package with two issues, and a non-zero exit asked for. *)
Lemma scan_exit_status_witness :
  fst (_scan two_rules unit two_issues (fun _ _ => []) (fun _ => "{}")
         (fun _ => Some quiet_package_scanner) (fun _ => true)
         (fun _ => "pypi")
         "./package" None [] [] None true PYPI [])
  = if true && (0 <? default 0 (two_issues tt))%Z
    then Exited 1 else Returned tt.
Proof.
  apply (scan_exit_status two_rules unit two_issues (fun _ _ => [])
           (fun _ => "{}") (fun _ => Some quiet_package_scanner)
           (fun _ => true) (fun _ => "pypi")
           "./package" None [] [] None quiet_package_scanner tt None true
           PYPI).
  - reflexivity.
  - reflexivity.
  - left. split; reflexivity.
Defined.

(** The address of a repository. *)
Lemma requirements_url_rewritten_witness :
  requirements_url ("https://" +:+ "github" +:+ ".com/psf/requests")
    "main" "requirements.txt"
  = "https://" +:+ "raw.githubusercontent" +:+ ".com/psf/requests"
    +:+ "/" +:+ "main" +:+ "/" +:+ "requirements.txt".
Proof.
  apply (requirements_url_rewritten "https://" ".com/psf/requests"
           "main" "requirements.txt");
    reflexivity.
Defined.

(** An environment without the two variables. *)
Lemma scan_remote_refusals_witness :
  let run :=
    scan_remote unit (fun _ => None) (fun _ _ => inr (200%Z, []))
      (fun _ => (inr ∅, []))
      "https://github.com/psf/requests" "main" "requirements.txt" in
  outcome unit run = Exited 1
  ∧ requested unit run = [] ∧ length (printed unit run) = 1.
Proof.
  intros run.
  apply (proj1 (scan_remote_refusals unit (fun _ => None)
                  (fun _ _ => inr (200%Z, [])) (fun _ => (inr ∅, []))
                  "https://github.com/psf/requests" "main"
                  "requirements.txt")).
  left. reflexivity.
Defined.

End ScanOutcomeExamples.
